(** * GRASS workshop notebooks: the authored glue code and its properties

    The repository holds two Jupyter notebooks, [01_Getting_Started.ipynb]
    and the autosaved draft [.ipynb_checkpoints/Getting_Started-checkpoint.ipynb].
    Their code cells drive an external GIS engine through shell commands and
    through the wrapper libraries [grass.script] (gs) and [grass.jupyter] (gj).
    Two small scripts are written out by [%%writefile] cells; they define the
    only functions of the repository: [myanalysis] (two versions) and
    [get_coordinates].  No cell runs them: the two [%%python yourlastname.py]
    cells have no body, and IPython refuses a cell magic without one.

    The cells are embedded as programs of a small effect language ([Prog]):
    an external invocation is a [Call] answered by the environment, a Python
    exception is a [Raise], and the interpreter state a cell touches
    (sys.path, bound names, the data frame, the file written by
    [%%writefile]) is threaded explicitly by [exec].  The engine is a
    parameter ([Env]): it decides which invocation fails and what text comes
    back.  Every invocation carries the line of the notebook file it stands
    on, so each one can be compared with the source. *)

From Stdlib Require Import List String Ascii Bool Arith ZArith QArith.
Import ListNotations.
Open Scope string_scope.

(* ------------------------------------------------------------------ *)
(** ** Python [str] operations used by the cells

    A [str] is modelled as a Rocq [string], one [ascii] per character, so
    the text ranges over the code points below 256. *)
(* ------------------------------------------------------------------ *)

Definition code (c : ascii) : nat := nat_of_ascii c.

(** Line boundaries of [str.splitlines]: LF, VT, FF, CR, FS, GS, RS, NEL. *)
Definition is_linebreak (c : ascii) : bool :=
  existsb (Nat.eqb (code c)) [10; 11; 12; 13; 28; 29; 30; 133]%nat.

(** [str.isspace] on one character: TAB..CR, FS..US, space, NEL, NBSP. *)
Definition is_space (c : ascii) : bool :=
  existsb (Nat.eqb (code c)) [9; 10; 11; 12; 13; 28; 29; 30; 31; 32; 133; 160]%nat.

Definition snoc (s : string) (c : ascii) : string := s ++ String c "".

(** [splitlines_from line s]: [line] is the text read since the last
    boundary.  A boundary closes the line; CR LF counts once; text left
    after the last boundary is a line of its own, an empty rest is not. *)
Fixpoint splitlines_from (line s : string) : list string :=
  match s with
  | EmptyString => match line with EmptyString => [] | _ => [line] end
  | String c rest =>
      if is_linebreak c then
        match rest with
        | String d rest' =>
            if (code c =? 13)%nat && (code d =? 10)%nat
            then line :: splitlines_from "" rest'
            else line :: splitlines_from "" rest
        | EmptyString => line :: splitlines_from "" rest
        end
      else splitlines_from (snoc line c) rest
  end.

(** [s.splitlines()] *)
Definition splitlines (s : string) : list string := splitlines_from "" s.

(** [s.split(sep)] for a one-character separator: never empty. *)
Fixpoint split_from (sep : ascii) (field s : string) : list string :=
  match s with
  | EmptyString => [field]
  | String c rest =>
      if Ascii.eqb c sep then field :: split_from sep "" rest
      else split_from sep (snoc field c) rest
  end.

Definition split (sep : ascii) (s : string) : list string := split_from sep "" s.

Definition comma : ascii := ascii_of_nat 44.

Definition dot : ascii := ascii_of_nat 46.

Definition nl : string := String (ascii_of_nat 10) "".

Fixpoint lstrip (s : string) : string :=
  match s with
  | String c rest => if is_space c then lstrip rest else s
  | EmptyString => EmptyString
  end.

Fixpoint rev_string (s acc : string) : string :=
  match s with
  | EmptyString => acc
  | String c rest => rev_string rest (String c acc)
  end.

(** [s.strip()] *)
Definition strip (s : string) : string :=
  rev_string (lstrip (rev_string (lstrip s) "")) "".

(* ------------------------------------------------------------------ *)
(** ** Exceptions *)
(* ------------------------------------------------------------------ *)

(** The key a [KeyError] reports: a dictionary key or a column label,
    or a row label of the default index. *)
Inductive Key : Type :=
| Label (s : string)
| Row (n : nat).

Inductive Exc : Type :=
| CalledModuleError (tool : string)   (* gs.*_command on a failing tool *)
| CalledProcessError                  (* subprocess.check_output, a python process *)
| ValueError (what : string)          (* float() on a malformed field *)
| KeyError (key : Key)
| NameError (name : string)
| ModuleNotFoundError (module : string)
| SyntaxError
| UsageError                          (* IPython: a cell magic without a cell body *)
| OtherError (n : nat).

(** The error monad of pure Python expressions. *)
Definition Res (A : Type) : Type := (Exc + A)%type.

Definition bindR {A B} (r : Res A) (f : A -> Res B) : Res B :=
  match r with inl e => inl e | inr a => f a end.

(** A list comprehension whose element expression may raise: elements are
    evaluated left to right and the first exception ends the evaluation. *)
Fixpoint comprehension {A B} (f : A -> Res B) (l : list A) : Res (list B) :=
  match l with
  | [] => inr []
  | a :: l' => bindR (f a) (fun b => bindR (comprehension f l') (fun bs => inr (b :: bs)))
  end.

(* ------------------------------------------------------------------ *)
(** ** A stand-in for [float()] on plain decimal literals

    Python's [float] belongs to the interpreter, not to the repository: the
    model takes it as a field of the environment.  [decimal_literal] is the
    instance the examples run on: it reads [-12.50] and the like exactly,
    as a rational, and rejects everything else.  Python's [float] also
    reads exponents, inf, nan and digit separators, and rounds what it
    reads to a double; the examples keep to literals on which the two
    agree. *)
(* ------------------------------------------------------------------ *)

Definition digit (c : ascii) : option Z :=
  let n := code c in
  if ((48 <=? n) && (n <=? 57))%nat then Some (Z.of_nat (n - 48)) else None.

(** [digits s acc cnt]: the value and the number of the leading digits of
    [s], and the rest of [s]. *)
Fixpoint digits (s : string) (acc : Z) (cnt : nat) : Z * nat * string :=
  match s with
  | String c rest =>
      match digit c with
      | Some d => digits rest (10 * acc + d)%Z (S cnt)
      | None => (acc, cnt, s)
      end
  | EmptyString => (acc, cnt, s)
  end.

Definition unsigned_literal (s : string) : option Q :=
  let '(ip, n1, rest) := digits s 0%Z 0%nat in
  match rest with
  | EmptyString => if (0 <? n1)%nat then Some (inject_Z ip) else None
  | String c rest' =>
      if (code c =? 46)%nat then
        let '(fp, n2, rest'') := digits rest' 0%Z 0%nat in
        match rest'' with
        | EmptyString =>
            if (0 <? n1 + n2)%nat
            then Some (Qred (Qmake (ip * 10 ^ Z.of_nat n2 + fp) (Z.to_pos (10 ^ Z.of_nat n2))))
            else None
        | _ => None
        end
      else None
  end.

Definition decimal_literal (s : string) : Res Q :=
  let t := strip s in
  let r := match t with
           | String c rest =>
               if (code c =? 45)%nat then option_map Qopp (unsigned_literal rest)
               else if (code c =? 43)%nat then unsigned_literal rest
               else unsigned_literal t
           | EmptyString => None
           end in
  match r with Some q => inr q | None => inl (ValueError s) end.

(* ------------------------------------------------------------------ *)
(** ** Invocations of external tools and wrapper functions *)
(* ------------------------------------------------------------------ *)

(** An argument as the cell writes it.  [F] is the type of Python floats. *)
Inductive Arg (F : Type) : Type :=
| AStr (s : string)                 (* a string *)
| ANum (literal : string)           (* a numeric literal, as written *)
| ABool (b : bool)
| ANames (l : list string)          (* a list of strings *)
| AFloats (l : list F)              (* a list of floats *)
| ACoords (c : list (list F)).      (* a list of coordinate lists *)
Arguments AStr {F} s.
Arguments ANum {F} literal.
Arguments ABool {F} b.
Arguments ANames {F} l.
Arguments AFloats {F} l.
Arguments ACoords {F} c.

(** How the cell reaches the tool. *)
Inductive Api : Type :=
| Shell          (* a [!command] line *)
| CheckOutput    (* subprocess.check_output *)
| RunCommand     (* gs.run_command *)
| ReadCommand    (* gs.read_command *)
| ParseCommand   (* gs.parse_command *)
| Wrapper.       (* any other function of gs, gj or pandas *)

Record Invocation (F : Type) : Type := mkInv {
  line : nat;                       (* line of the call in the notebook file *)
  api : Api;
  tool : string;
  flags : list string;
  args : list (string * Arg F)      (* keyword arguments; positional ones under the empty keyword *)
}.
Arguments mkInv {F} _ _ _ _ _.
Arguments line {F} _.
Arguments api {F} _.
Arguments tool {F} _.
Arguments flags {F} _.
Arguments args {F} _.

(** An attribute table: rows in order, each row its columns. *)
Definition Table (F : Type) : Type := list (list (string * F)).

(** What an invocation hands back: the text a command printed, the names
    a listing wrapper returns, the records [parse_command] decoded. *)
Record Output (F : Type) : Type := mkOut {
  stdout : string;
  names : list string;
  records : option (Table F)
}.
Arguments mkOut {F} _ _ _.
Arguments stdout {F} _.
Arguments names {F} _.
Arguments records {F} _.

Definition no_output {F} : Output F := mkOut "" [] None.

(** One performed invocation: what was called, the mask active when it
    started, and how it ended. *)
Record Event (F : Type) : Type := mkEvent {
  ev_inv : Invocation F;
  ev_mask : option string;
  ev_result : Res (Output F)
}.
Arguments mkEvent {F} _ _ _.
Arguments ev_inv {F} _.
Arguments ev_mask {F} _.
Arguments ev_result {F} _.

(** The two scripts a [%%writefile yourlastname.py] cell writes. *)
Inductive Script : Type :=
| ProfileCurvature     (* checkpoint notebook, lines 1001-1012 *)
| FlowTrace.           (* checkpoint notebook, lines 1074-1094 *)

(* ------------------------------------------------------------------ *)
(** ** Programs *)
(* ------------------------------------------------------------------ *)

(** What a statement does to the interpreter without leaving it. *)
Inductive InterpOp (F : Type) : Type :=
| PathAppend (p : string)           (* sys.path.append(p) *)
| Import (module name : string)     (* import module as name *)
| Need (name : string)              (* a global name is read *)
| SetDf (t : Table F)               (* df = ... *)
| WriteFile (file : string) (s : Script).   (* %%writefile file *)
Arguments PathAppend {F} p.
Arguments Import {F} module name.
Arguments Need {F} name.
Arguments SetDf {F} t.
Arguments WriteFile {F} file s.

(** A cell or a function body, in the fragment of Python the notebooks
    are written in.  [Try body handler k] is [try: body except: handler]
    followed by [k]; [RunFile file k] starts a python process on a file
    and goes on with [k] when it exits cleanly.  The language has both so
    that what the cells do not do can be stated: no cell and no function
    of the repository has a [try] statement, and no cell starts a file. *)
Inductive Prog (F A : Type) : Type :=
| Ret (a : A)
| Raise (e : Exc)
| Call (i : Invocation F) (k : Output F -> Prog F A)
| Interp (op : InterpOp F) (k : Prog F A)
| ReadDf (k : Table F -> Prog F A)          (* the value of df *)
| RunFile (file : string) (k : Prog F A)    (* python file *)
| Try (body : Prog F unit) (handler : Exc -> Prog F unit) (k : Prog F A).
Arguments Ret {F A} a.
Arguments Raise {F A} e.
Arguments Call {F A} i k.
Arguments Interp {F A} op k.
Arguments ReadDf {F A} k.
Arguments RunFile {F A} file k.
Arguments Try {F A} body handler k.

Fixpoint bind {F A B} (p : Prog F A) (f : A -> Prog F B) : Prog F B :=
  match p with
  | Ret a => f a
  | Raise e => Raise e
  | Call i k => Call i (fun out => bind (k out) f)
  | Interp op k => Interp op (bind k f)
  | ReadDf k => ReadDf (fun t => bind (k t) f)
  | RunFile file k => RunFile file (bind k f)
  | Try body handler k => Try body handler (bind k f)
  end.

Declare Scope prog_scope.
Delimit Scope prog_scope with prog.
Notation "x <- p ;; q" := (bind p (fun x => q))
  (at level 61, p at next level, right associativity) : prog_scope.
Notation "p ;; q" := (bind p (fun _ => q))
  (at level 61, right associativity) : prog_scope.
Open Scope prog_scope.

(** A pure expression that may raise, as a statement. *)
Definition lift {F A} (r : Res A) : Prog F A :=
  match r with inl e => Raise e | inr a => Ret a end.

(* ------------------------------------------------------------------ *)
(** ** The two scripts (checkpoint notebook, [%%writefile] cells)

    A script imports [grass.script] as [gs] on its first line, so [gs] is
    bound whenever one of its functions runs; [float] is the interpreter's
    conversion, passed in by the caller. *)
(* ------------------------------------------------------------------ *)

Module ProfileCurvatureScript.

(** lines 1006-1008:
    def myanalysis(elevation):
        gs.run_command("r.slope.aspect", elevation=elevation, pcurvature="pcurvature") *)
Definition myanalysis {F} (elevation : string) : Prog F unit :=
  Call (mkInv 1008 RunCommand "r.slope.aspect" []
          [("elevation", AStr elevation); ("pcurvature", AStr "pcurvature")])
       (fun _ => Ret tt).

(** lines 1002 and 1010-1012, run as [__main__] *)
Definition main {F} : Prog F unit :=
  Interp (Import "grass.script" "gs") (myanalysis "elevation").

End ProfileCurvatureScript.

Module FlowTraceScript.

(** lines 1077-1081:
    def get_coordinates(points):
        data = gs.read_command("v.out.ascii", input=points, separator="comma").splitlines()
        return [[float(coor) for coor in point.split(",")[:2]] for point in data] *)
Definition coordinate_pairs {F} (float : string -> Res F) (data : list string)
  : Res (list (list F)) :=
  comprehension (fun point => comprehension float (firstn 2 (split comma point))) data.

Definition get_coordinates {F} (float : string -> Res F) (points : string)
  : Prog F (list (list F)) :=
  out <- Call (mkInv 1080 ReadCommand "v.out.ascii" []
                 [("input", AStr points); ("separator", AStr "comma")]) Ret ;;
  let data := splitlines (stdout out) in
  lift (coordinate_pairs float data).

(** lines 1085-1089:
    def myanalysis(elevation, points):
        coordinates = get_coordinates(points)
        if coordinates:
            gs.run_command("r.drain", input=elevation, output="drain",
                           drain="drain_vector", start_coordinates=coordinates) *)
Definition myanalysis {F} (float : string -> Res F) (elevation points : string)
  : Prog F unit :=
  coordinates <- get_coordinates float points ;;
  match coordinates with
  | [] => Ret tt
  | _ :: _ =>
      Call (mkInv 1089 RunCommand "r.drain" []
              [("input", AStr elevation); ("output", AStr "drain");
               ("drain", AStr "drain_vector"); ("start_coordinates", ACoords coordinates)])
           (fun _ => Ret tt)
  end.

(** lines 1075 and 1091-1094, run as [__main__] *)
Definition main {F} (float : string -> Res F) : Prog F unit :=
  Interp (Import "grass.script" "gs") (myanalysis float "elevation" "lagoon_points").

End FlowTraceScript.

Definition script_main {F} (float : string -> Res F) (s : Script) : Prog F unit :=
  match s with
  | ProfileCurvature => ProfileCurvatureScript.main
  | FlowTrace => FlowTraceScript.main float
  end.

(* ------------------------------------------------------------------ *)
(** ** The environment and the state *)
(* ------------------------------------------------------------------ *)

(** Everything the repository does not own. *)
Record Env (F : Type) : Type := mkEnv {
  respond : list (Event F) -> Invocation F -> Res (Output F);
      (* the outcome of an invocation, given what was performed before *)
  provides : string -> string -> bool;
      (* does this directory hold this module *)
  child_path : list string;
      (* sys.path of a python process started on a file *)
  pyfloat : string -> Res F;
      (* float() *)
  nan : F
      (* the float pandas puts where a record has no value *)
}.
Arguments mkEnv {F} _ _ _ _ _.
Arguments respond {F} _ _ _.
Arguments provides {F} _ _ _.
Arguments child_path {F} _.
Arguments pyfloat {F} _ _.
Arguments nan {F} _.

Record World (F : Type) : Type := mkWorld {
  sys_path : list string;                   (* interpreter: module search path *)
  bound : list string;                      (* interpreter: bound global names *)
  df : option (Table F);                    (* interpreter: the data frame *)
  files : list (string * Script);           (* working directory *)
  mask : option string;                     (* session: the active raster mask *)
  region : list (list (string * Arg F));    (* session: region settings applied, newest first *)
  log : list (Event F)                      (* invocations performed, oldest first *)
}.
Arguments mkWorld {F} _ _ _ _ _ _ _.
Arguments sys_path {F} _.
Arguments bound {F} _.
Arguments df {F} _.
Arguments files {F} _.
Arguments mask {F} _.
Arguments region {F} _.
Arguments log {F} _.

Fixpoint lookup {V} (key : string) (l : list (string * V)) : option V :=
  match l with
  | [] => None
  | (k, v) :: l' => if String.eqb key k then Some v else lookup key l'
  end.

Definition mem (s : string) (l : list string) : bool := existsb (String.eqb s) l.
Arguments mem s l : simpl never.

Section Semantics.
Context {F : Type}.

Definition has_flag (f : string) (i : Invocation F) : bool := mem f (flags i).

(** The engine's mask, as the notebook describes it: [r.mask raster=X]
    sets it, [r.mask -r] removes it, no other tool of the notebooks
    touches it. *)
Definition mask_step (i : Invocation F) (m : option string) : option string :=
  if tool i =? "r.mask" then
    if has_flag "r" i then None
    else match lookup "raster" (args i) with
         | Some (AStr r) => Some r
         | _ => m
         end
  else m.

(** The engine's region: a [g.region] with settings changes it. *)
Definition region_step (i : Invocation F) (r : list (list (string * Arg F)))
  : list (list (string * Arg F)) :=
  if tool i =? "g.region" then
    match args i with [] => r | _ :: _ => args i :: r end
  else r.

(** An invocation is answered by the environment and logged; a completed
    one acts on the session, a failed one leaves it as it was. *)
Definition invoke (env : Env F) (i : Invocation F) (w : World F)
  : Res (Output F) * World F :=
  let r := respond env (log w) i in
  let ev := mkEvent i (mask w) r in
  match r with
  | inr _ => (r, mkWorld (sys_path w) (bound w) (df w) (files w)
                   (mask_step i (mask w)) (region_step i (region w)) (log w ++ [ev]))
  | inl _ => (r, mkWorld (sys_path w) (bound w) (df w) (files w)
                   (mask w) (region w) (log w ++ [ev]))
  end.

(** A [!command] line shows the failure of its command and goes on; the
    Python functions raise. *)
Definition raises (a : Api) : bool :=
  match a with Shell => false | _ => true end.

(** The package a dotted module name begins with: grass for grass.script. *)
Definition top_package (module : string) : string := hd module (split dot module).

(** What a failed import names: the package, when no directory of the
    path holds it, and else the module. *)
Definition not_found (env : Env F) (path : list string) (module : string) : string :=
  if existsb (fun dir => provides env dir (top_package module)) path
  then module else top_package module.

(** The columns of [pd.DataFrame(records)]: the keys of the records, in
    the order in which they first appear. *)
Definition add_columns (cols keys : list string) : list string :=
  fold_left (fun cs k => if mem k cs then cs else (cs ++ [k])%list) keys cols.

Definition columns (t : Table F) : list string :=
  fold_left (fun cs r => add_columns cs (map fst r)) t [].

(** [pd.DataFrame(records)]: every record gets every column, and [fill]
    (NaN) where it has no value. *)
Definition frame (fill : F) (t : Table F) : Table F :=
  map (fun r => map (fun c => (c, match lookup c r with Some v => v | None => fill end))
                    (columns t)) t.

Definition interp_step (env : Env F) (op : InterpOp F) (w : World F) : Res (World F) :=
  match op with
  | PathAppend p =>
      inr (mkWorld (sys_path w ++ [p]) (bound w) (df w) (files w) (mask w) (region w) (log w))
  | Import module name =>
      if existsb (fun dir => provides env dir module) (sys_path w)
      then inr (mkWorld (sys_path w) (name :: bound w) (df w) (files w) (mask w) (region w) (log w))
      else inl (ModuleNotFoundError (not_found env (sys_path w) module))
  | Need name =>
      if mem name (bound w) then inr w else inl (NameError name)
  | SetDf t =>
      inr (mkWorld (sys_path w) ("df" :: bound w) (Some (frame (nan env) t)) (files w)
             (mask w) (region w) (log w))
  | WriteFile file s =>
      inr (mkWorld (sys_path w) (bound w) (df w) ((file, s) :: files w) (mask w) (region w) (log w))
  end.

(** [exec env sub p w] runs [p] in [w]; [sub file w] runs a file in a
    python process of its own and tells whether it exited cleanly.  A
    handler runs when its body raises, in the state the body left. *)
Fixpoint exec (env : Env F) (sub : string -> World F -> bool * World F)
         {A : Type} (p : Prog F A) (w : World F) : Res A * World F :=
  match p with
  | Ret a => (inr a, w)
  | Raise e => (inl e, w)
  | Call i k =>
      let '(r, w') := invoke env i w in
      match r with
      | inr out => exec env sub (k out) w'
      | inl e => if raises (api i) then (inl e, w') else exec env sub (k no_output) w'
      end
  | Interp op k =>
      match interp_step env op w with
      | inr w' => exec env sub k w'
      | inl e => (inl e, w)
      end
  | ReadDf k =>
      match df w with
      | Some t => exec env sub (k t) w
      | None => (inl (NameError "df"), w)
      end
  | RunFile file k =>
      let '(ok, w') := sub file w in
      if ok then exec env sub k w' else (inl CalledProcessError, w')
  | Try body handler k =>
      match exec env sub body w with
      | (inr _, w') => exec env sub k w'
      | (inl e, w') =>
          match exec env sub (handler e) w' with
          | (inr _, w'') => exec env sub k w''
          | (inl e', w'') => (inl e', w'')
          end
      end
  end.

(** A script runs on its own: nothing it runs starts a further file. *)
Definition exec_script (env : Env F) {A} (p : Prog F A) (w : World F) : Res A * World F :=
  exec env (fun _ w => (false, w)) p w.

(** A python process started on a file: a fresh interpreter on the same
    working directory and the same engine session; what it leaves behind
    is the session and the log. *)
Definition run_file (env : Env F) (file : string) (w : World F) : bool * World F :=
  match lookup file (files w) with
  | None => (false, w)
  | Some s =>
      let child := mkWorld (child_path env) [] None (files w) (mask w) (region w) (log w) in
      let '(r, c) := exec_script env (script_main (pyfloat env) s) child in
      (match r with inr _ => true | inl _ => false end,
       mkWorld (sys_path w) (bound w) (df w) (files c) (mask c) (region c) (log c))
  end.

(** One cell of a notebook. *)
Definition run_cell (env : Env F) (c : Prog F unit) (w : World F) : Res unit * World F :=
  exec env (run_file env) c w.

(** The cells in order.  With [keep_going] every cell is run whatever
    the earlier ones did (a reader stepping through the notebook);
    without it the run ends at the first cell that raises (Run All).
    The result lists the outcome of each cell that was run. *)
Fixpoint run_notebook (env : Env F) (keep_going : bool) (cells : list (Prog F unit))
         (w : World F) : list (Res unit) * World F :=
  match cells with
  | [] => ([], w)
  | c :: rest =>
      let '(r, w') := run_cell env c w in
      match r with
      | inl _ => if keep_going
                 then let '(rs, w'') := run_notebook env keep_going rest w' in (r :: rs, w'')
                 else ([r], w')
      | inr _ => let '(rs, w'') := run_notebook env keep_going rest w' in (r :: rs, w'')
      end
  end.

(** A fresh kernel on a fresh project. *)
Definition fresh (path : list string) : World F :=
  mkWorld path [] None [] None [] [].

End Semantics.

(* ------------------------------------------------------------------ *)
(** ** Statements the cells are made of *)
(* ------------------------------------------------------------------ *)

Section Statements.
Context {F : Type}.

Definition need (name : string) : Prog F unit := Interp (Need name) (Ret tt).

Definition import_as (module name : string) : Prog F unit :=
  Interp (Import module name) (Ret tt).

(** [!tool -flags key=value ...] *)
Definition sh (ln : nat) (tl : string) (fl : list string) (ar : list (string * Arg F))
  : Prog F unit :=
  Call (mkInv ln Shell tl fl ar) (fun _ => Ret tt).

(** [gs.run_command(tool, flags=..., key=value, ...)] *)
Definition gs_run_command (ln : nat) (tl : string) (fl : list string)
           (ar : list (string * Arg F)) : Prog F unit :=
  need "gs" ;; Call (mkInv ln RunCommand tl fl ar) (fun _ => Ret tt).

(** A function of [gj], or a method of a map object made in the same
    cell; [gj.Map] forwards a method [d_xxx] to the display tool [d.xxx]. *)
Definition wrapper (ln : nat) (tl : string) (ar : list (string * Arg F)) : Prog F unit :=
  Call (mkInv ln Wrapper tl [] ar) (fun _ => Ret tt).

(** Is [col] a column of the frame. *)
Definition has_column (col : string) (t : Table F) : bool :=
  existsb (fun r => match lookup col r with Some _ => true | None => false end) t.

(** [df.loc[row, col]] on a frame with the default index: pandas looks
    for the column, then for the row.  Every record of a frame has every
    column ([frame]), so the last case does not arise on the value of df
    a cell has assigned. *)
Definition loc (t : Table F) (row : nat) (col : string) : Res F :=
  if has_column col t then
    match nth_error t row with
    | None => inl (KeyError (Row row))
    | Some r => match lookup col r with
                | Some v => inr v
                | None => inl (KeyError (Label col))
                end
    end
  else inl (KeyError (Label col)).

Definition df_loc (row : nat) (col : string) : Prog F F :=
  ReadDf (fun t => lift (loc t row col)).

End Statements.

(* ------------------------------------------------------------------ *)
(** ** 01_Getting_Started.ipynb, cell by cell *)
(* ------------------------------------------------------------------ *)

Module GettingStarted.

(** lines 51-53 *)
Definition cell_imports {F} : Prog F unit :=
  import_as "subprocess" "subprocess" ;; import_as "sys" "sys" ;; import_as "pathlib" "Path".

(** lines 73-75:
    sys.path.append(
        subprocess.check_output(["grass", "--config", "python_path"], text=True).strip()) *)
Definition cell_python_path {F} : Prog F unit :=
  need "sys" ;; need "subprocess" ;;
  out <- Call (mkInv 74 CheckOutput "grass" ["config"] [("", AStr "python_path")]) Ret ;;
  Interp (PathAppend (strip (stdout out))) (Ret tt).

(** lines 92-93 *)
Definition cell_import_grass {F} : Prog F unit :=
  import_as "grass.script" "gs" ;; import_as "grass.jupyter" "gj".

Definition cell_create_project {F} : Prog F unit :=
  need "gs" ;;
  wrapper 120 "gs.create_project"
    [("", AStr "nc-swine"); ("epsg", ANum "3358"); ("overwrite", ABool true)].

(** line 136 is a comment; lines 450 and 490 are empty cells *)
Definition cell_empty {F} : Prog F unit := Ret tt.

Definition cell_init {F} : Prog F unit :=
  need "gj" ;; wrapper 154 "gj.init" [("", AStr "./nc-swine/PERMANENT")].

Definition cell_relief {F} : Prog F unit :=
  gs_run_command 570 "r.relief" [] [("input", AStr "elevation"); ("output", AStr "relief")].

Definition cell_example_map {F} : Prog F unit :=
  need "gj" ;;
  wrapper 524 "gj.Map" [] ;;
  wrapper 525 "d.rast" [("map", AStr "elevation")] ;;
  wrapper 526 "d.barscale" [("bgcolor", AStr "none")] ;;
  wrapper 527 "d.legend" [("raster", AStr "elevation")] ;;
  wrapper 528 "Map.show" [].

Definition cell_interactive_map {F} : Prog F unit :=
  need "gj" ;;
  wrapper 548 "gj.InteractiveMap" [] ;;
  wrapper 549 "InteractiveMap.add_raster" [("", AStr "ortho"); ("opacity", ANum "0.6")] ;;
  wrapper 550 "InteractiveMap.add_vector" [("", AStr "lagoons")] ;;
  wrapper 551 "InteractiveMap.add_layer_control" [] ;;
  wrapper 552 "InteractiveMap.show" [].

Definition cell_shaded_map {F} : Prog F unit :=
  need "gj" ;;
  wrapper 579 "gj.Map" [] ;;
  wrapper 580 "d.shade" [("color", AStr "elevation"); ("shade", AStr "relief"); ("brighten", ANum "50")] ;;
  wrapper 581 "d.vect" [("map", AStr "lagoons"); ("color", AStr "none"); ("fill_color", AStr "blue")] ;;
  wrapper 582 "d.barscale" [("bgcolor", AStr "none")] ;;
  wrapper 583 "Map.show" [].

Definition cells {F} : list (Prog F unit) :=
  [ cell_imports;
    cell_python_path;
    cell_import_grass;
    cell_create_project;
    cell_empty;
    cell_init;
    sh 170 "g.version" [] [];
    sh 181 "g.list" [] [("type", AStr "all")];
    sh 190 "g.region" ["p"] [];
    sh 212 "v.import" [] [("input", AStr "./lagoons.gpkg"); ("output", AStr "lagoons")];
    sh 223 "g.region" ["a"] [("vector", AStr "lagoons"); ("res", ANum "10")];
    sh 232 "g.region" ["p"] [("grow", ANum "200")];
    sh 243 "g.list" [] [("type", AStr "all")];
    sh 263 "g.extension" [] [("", AStr "r.in.usgs")];
    sh 284 "r.in.usgs" []
       [("product", AStr "ned"); ("ned_dataset", AStr "ned19sec"); ("output_name", AStr "elevation")];
    sh 322 "g.list" [] [("type", AStr "all")];
    sh 331 "r.in.wms" []
       [("url", AStr "https://imagery.nationalmap.gov/arcgis/services/USGSNAIPPlus/ImageServer/WMSServer");
        ("out", AStr "ortho"); ("layer", AStr "USGSNAIPPlus")];
    sh 375 "g.search.modules" [] [("keyword", AStr "zonal")];
    sh 391 "r.univar" ["help"] [];
    gs_run_command 433 "g.list" [] [("type", AStr "raster")];
    cell_empty;
    cell_empty;
    cell_example_map;
    cell_interactive_map;
    cell_relief;
    cell_shaded_map ].

End GettingStarted.

(* ------------------------------------------------------------------ *)
(** ** .ipynb_checkpoints/Getting_Started-checkpoint.ipynb, cell by cell *)
(* ------------------------------------------------------------------ *)

Module Checkpoint.

(** lines 56-58 *)
Definition cell_imports {F} : Prog F unit :=
  import_as "subprocess" "subprocess" ;; import_as "sys" "sys" ;; import_as "pathlib" "Path".

(** lines 78-80 *)
Definition cell_python_path {F} : Prog F unit :=
  need "sys" ;; need "subprocess" ;;
  out <- Call (mkInv 79 CheckOutput "grass" ["config"] [("", AStr "python_path")]) Ret ;;
  Interp (PathAppend (strip (stdout out))) (Ret tt).

(** lines 97-98 *)
Definition cell_import_grass {F} : Prog F unit :=
  import_as "grass.script" "gs" ;; import_as "grass.jupyter" "gj".

(** lines 134 and 150 are comments; lines 454 and 494 are empty cells *)
Definition cell_empty {F} : Prog F unit := Ret tt.

Definition cell_init {F} : Prog F unit :=
  need "gj" ;; wrapper 168 "gj.init" [("", AStr "./csdms-grass-2025/PERMANENT")].

Definition cell_example_map {F} : Prog F unit :=
  need "gj" ;;
  wrapper 528 "gj.Map" [] ;;
  wrapper 529 "d.rast" [("map", AStr "ortho")] ;;
  wrapper 530 "d.barscale" [("bgcolor", AStr "none")] ;;
  wrapper 531 "Map.show" [].

Definition cell_interactive_map {F} : Prog F unit :=
  need "gj" ;;
  wrapper 551 "gj.InteractiveMap" [] ;;
  wrapper 552 "InteractiveMap.add_raster" [("", AStr "elevation"); ("opacity", ANum "0.7")] ;;
  wrapper 553 "InteractiveMap.add_vector" [("", AStr "lagoons")] ;;
  wrapper 554 "InteractiveMap.show" [].

Definition cell_watershed {F} : Prog F unit :=
  gs_run_command 614 "r.watershed" []
    [("elevation", AStr "elevation"); ("accumulation", AStr "accumulation");
     ("drainage", AStr "drainage")].

Definition cell_accumulation_map {F} : Prog F unit :=
  need "gj" ;;
  wrapper 625 "gj.InteractiveMap" [] ;;
  wrapper 626 "InteractiveMap.add_raster" [("", AStr "accumulation"); ("opacity", ANum "0.5")] ;;
  wrapper 627 "InteractiveMap.show" [].

Definition cell_path {F} : Prog F unit :=
  gs_run_command 638 "r.path" []
    [("input", AStr "drainage"); ("vector_path", AStr "drain");
     ("start_points", AStr "lagoon_points")].

Definition cell_drain_map {F} : Prog F unit :=
  need "gj" ;;
  wrapper 658 "gj.Map" [] ;;
  wrapper 659 "d.shade" [("color", AStr "ortho"); ("shade", AStr "relief"); ("brighten", ANum "50")] ;;
  wrapper 660 "d.vect" [("map", AStr "drain"); ("width", ANum "1"); ("color", AStr "blue")] ;;
  wrapper 661 "Map.show" [].

Definition cell_extension_hand {F} : Prog F unit :=
  gs_run_command 686 "g.extension" [] [("extension", AStr "r.hand")].

(** lines 706-714: the call of r.hand lacks the comma after
    [inundation_strds="inundation"]; the cell does not compile, and a cell
    that does not compile runs no statement. *)
Definition cell_hand {F} : Prog F unit := Raise SyntaxError.

Definition cell_inundation_map {F} : Prog F unit :=
  need "gj" ;;
  wrapper 725 "gj.TimeSeriesMap" [] ;;
  wrapper 726 "d.rast" [("map", AStr "relief")] ;;
  wrapper 727 "d.vect" [("map", AStr "lagoons"); ("fill_color", AStr "none")] ;;
  wrapper 728 "TimeSeriesMap.add_raster_series" [("", AStr "inundation")] ;;
  wrapper 729 "TimeSeriesMap.show" [].

Definition cell_extract {F} : Prog F unit :=
  gs_run_command 760 "v.extract" []
    [("input", AStr "streams"); ("output", AStr "stream_points"); ("type", AStr "point");
     ("where", AStr "x IS NOT NULL")].

Definition cell_streams_map {F} : Prog F unit :=
  need "gj" ;;
  wrapper 771 "gj.Map" [] ;;
  wrapper 772 "d.rast" [("map", AStr "relief")] ;;
  wrapper 773 "d.vect" [("map", AStr "streams"); ("color", AStr "blue")] ;;
  wrapper 774 "d.vect" [("map", AStr "stream_points"); ("display", AStr "cat");
                        ("label_color", AStr "white"); ("label_size", ANum "10")] ;;
  wrapper 775 "Map.show" [].

(** lines 795-799:
    import pandas as pd
    gs.run_command("v.to.db", map="stream_points", option="coor", type="point", columns="x,y")
    df = pd.DataFrame(gs.parse_command("v.db.select", map="stream_points",
                                       columns="cat,x,y", format="json")["records"])
    df
    [SetDf] builds the frame from the records. *)
Definition cell_table {F} : Prog F unit :=
  import_as "pandas" "pd" ;;
  gs_run_command 797 "v.to.db" []
    [("map", AStr "stream_points"); ("option", AStr "coor"); ("type", AStr "point");
     ("columns", AStr "x,y")] ;;
  need "pd" ;; need "gs" ;;
  out <- Call (mkInv 798 ParseCommand "v.db.select" []
                 [("map", AStr "stream_points"); ("columns", AStr "cat,x,y");
                  ("format", AStr "json")]) Ret ;;
  recs <- lift (match records out with
                | Some t => inr t
                | None => inl (KeyError (Label "records"))
                end) ;;
  Interp (SetDf recs) (ReadDf (fun _ => Ret tt)).

(** line 810: [df.loc[8, 'x'], df.loc[8, 'y']] *)
Definition cell_point {F} : Prog F unit :=
  x <- df_loc 8 "x" ;; y <- df_loc 8 "y" ;; Ret tt.

(** lines 830-833 *)
Definition cell_outlet {F} : Prog F unit :=
  need "gs" ;;
  x <- df_loc 8 "x" ;; y <- df_loc 8 "y" ;;
  Call (mkInv 830 RunCommand "r.water.outlet" []
          [("input", AStr "direction"); ("output", AStr "basin_15");
           ("coordinates", AFloats [x; y])]) (fun _ => Ret tt) ;;
  need "gj" ;;
  wrapper 831 "gj.Map" [] ;;
  wrapper 832 "d.shade" [("color", AStr "basin_15"); ("shade", AStr "relief"); ("brighten", ANum "50")] ;;
  wrapper 833 "Map.show" [].

Definition cell_region_basin {F} : Prog F unit :=
  gs_run_command 864 "g.region" [] [("zoom", AStr "basin_13"); ("res", ANum "6")].

Definition cell_mask {F} : Prog F unit :=
  gs_run_command 884 "r.mask" [] [("raster", AStr "basin_15")].

(** lines 904-905 *)
Definition cell_sim_water {F} : Prog F unit :=
  gs_run_command 904 "r.slope.aspect" []
    [("elevation", AStr "elevation"); ("dx", AStr "dx"); ("dy", AStr "dy")] ;;
  gs_run_command 905 "r.sim.water" ["t"]
    [("elevation", AStr "elevation"); ("dx", AStr "dx"); ("dy", AStr "dy");
     ("depth", AStr "depth"); ("niterations", ANum "30")].

(** lines 925-934:
    gs.run_command("t.create", output="depth", ...)
    maps = gs.list_strings(type="raster", pattern="depth*")
    gs.run_command("t.register", input="depth", maps=maps) *)
Definition cell_register {F} : Prog F unit :=
  gs_run_command 926 "t.create" []
    [("output", AStr "depth"); ("temporaltype", AStr "relative");
     ("title", AStr "Overland flow depth"); ("description", AStr "Overland flow depth")] ;;
  need "gs" ;;
  out <- Call (mkInv 933 Wrapper "gs.list_strings" []
                 [("type", AStr "raster"); ("pattern", AStr "depth*")]) Ret ;;
  let maps := names out in
  gs_run_command 934 "t.register" [] [("input", AStr "depth"); ("maps", ANames maps)].

Definition cell_flow_map {F} : Prog F unit :=
  need "gj" ;;
  wrapper 945 "gj.TimeSeriesMap" [] ;;
  wrapper 946 "TimeSeriesMap.add_raster_series" [("", AStr "depth")] ;;
  wrapper 947 "TimeSeriesMap.show" [].

(** lines 967-970 *)
Definition cell_unmask {F} : Prog F unit :=
  gs_run_command 968 "r.mask" ["r"] [] ;;
  gs_run_command 970 "g.region" ["a"]
    [("n", ANum "131934"); ("s", ANum "126825"); ("w", ANum "702726");
     ("e", ANum "708443"); ("res", ANum "3")].

(** lines 1001-1012 and 1074-1094: [%%writefile yourlastname.py] *)
Definition cell_write (s : Script) {F} : Prog F unit :=
  Interp (WriteFile "yourlastname.py" s) (Ret tt).

(** lines 1032 and 1105: [%%python yourlastname.py] and nothing else.
    [%%python] is a cell magic and the cell has no body: IPython raises
    UsageError before it looks for the file or starts a process. *)
Definition cell_python {F} : Prog F unit := Raise UsageError.

Definition cell_curvature_map {F} : Prog F unit :=
  need "gj" ;;
  wrapper 1052 "gj.Map" [] ;;
  wrapper 1053 "d.rast" [("map", AStr "pcurvature")] ;;
  wrapper 1054 "Map.show" [].

Definition cell_trace_map {F} : Prog F unit :=
  need "gj" ;;
  wrapper 1116 "gj.Map" [] ;;
  wrapper 1117 "d.rast" [("map", AStr "elevation")] ;;
  wrapper 1118 "d.vect" [("map", AStr "drain_vector")] ;;
  wrapper 1119 "Map.show" [].

(** The cells before the mask is set, the cell that sets it, the cells
    run under it, the cell that removes it, and the cells after. *)
Definition cells_before_mask {F} : list (Prog F unit) :=
  [ cell_imports;
    cell_python_path;
    cell_import_grass;
    sh 125 "grass" ["e"] [("c", AStr "EPSG:3358"); ("", AStr "$HOME/csdms-grass-2025")];
    cell_empty;
    cell_empty;
    cell_init;
    sh 184 "g.version" [] [];
    sh 195 "g.list" [] [("type", AStr "all")];
    sh 204 "g.region" ["p"] [];
    sh 228 "v.import" [] [("input", AStr "./lagoons.gpkg"); ("output", AStr "lagoons")];
    sh 239 "g.region" ["a"] [("vector", AStr "lagoons"); ("res", ANum "10")];
    sh 248 "g.region" [] [("grow", ANum "200")];
    sh 268 "g.extension" [] [("", AStr "r.in.usgs")];
    sh 288 "r.in.usgs" ["verbose"]
       [("product", AStr "ned"); ("ned_dataset", AStr "ned19sec"); ("output_name", AStr "elevation")];
    sh 326 "r.in.wms" []
       [("url", AStr "https://imagery.nationalmap.gov/arcgis/services/USGSNAIPPlus/ImageServer/WMSServer");
        ("out", AStr "ortho"); ("layer", AStr "USGSNAIPPlus")];
    sh 335 "g.list" [] [("type", AStr "all")];
    sh 379 "g.search.modules" [] [("keyword", AStr "zonal")];
    sh 395 "r.univar" ["help"] [];
    gs_run_command 437 "g.list" [] [("type", AStr "raster")];
    cell_empty;
    cell_empty;
    cell_example_map;
    cell_interactive_map;
    cell_watershed;
    cell_accumulation_map;
    cell_path;
    cell_drain_map;
    cell_extension_hand;
    cell_hand;
    cell_inundation_map;
    cell_extract;
    cell_streams_map;
    cell_table;
    cell_point;
    cell_outlet;
    cell_region_basin ].

Definition cells_under_mask {F} : list (Prog F unit) :=
  [ cell_sim_water; cell_register; cell_flow_map ].

Definition cells_after_mask {F} : list (Prog F unit) :=
  [ cell_write ProfileCurvature;
    cell_python;
    cell_curvature_map;
    cell_write FlowTrace;
    cell_python;
    cell_trace_map ].

Definition cells {F} : list (Prog F unit) :=
  cells_before_mask ++ [cell_mask] ++ cells_under_mask ++ [cell_unmask] ++ cells_after_mask.

End Checkpoint.

(* ------------------------------------------------------------------ *)
(** ** Dataset names in an invocation

    Which keyword of which tool names a dataset, and whether the tool reads
    or writes it, is the tools' interface; the table lists the tools the
    two notebooks call. *)
(* ------------------------------------------------------------------ *)

Inductive Role : Type := Consumes | Produces.

Definition roles : list (string * list (string * Role)) :=
  [ ("v.import", [("output", Produces)]);
    ("r.in.usgs", [("output_name", Produces)]);
    ("r.in.wms", [("out", Produces)]);
    ("g.region", [("vector", Consumes); ("zoom", Consumes)]);
    ("r.relief", [("input", Consumes); ("output", Produces)]);
    ("r.watershed", [("elevation", Consumes); ("accumulation", Produces); ("drainage", Produces)]);
    ("r.path", [("input", Consumes); ("start_points", Consumes); ("vector_path", Produces)]);
    ("v.extract", [("input", Consumes); ("output", Produces)]);
    ("v.to.db", [("map", Consumes)]);
    ("v.db.select", [("map", Consumes)]);
    ("r.water.outlet", [("input", Consumes); ("output", Produces)]);
    ("r.mask", [("raster", Consumes)]);
    ("r.slope.aspect", [("elevation", Consumes); ("dx", Produces); ("dy", Produces);
                        ("pcurvature", Produces)]);
    ("r.sim.water", [("elevation", Consumes); ("dx", Consumes); ("dy", Consumes);
                     ("depth", Produces)]);
    ("t.create", [("output", Produces)]);
    ("t.register", [("input", Consumes); ("maps", Consumes)]);
    ("v.out.ascii", [("input", Consumes)]);
    ("r.drain", [("input", Consumes); ("output", Produces); ("drain", Produces)]);
    ("d.rast", [("map", Consumes)]);
    ("d.vect", [("map", Consumes)]);
    ("d.legend", [("raster", Consumes)]);
    ("d.shade", [("color", Consumes); ("shade", Consumes)]);
    ("InteractiveMap.add_raster", [("", Consumes)]);
    ("InteractiveMap.add_vector", [("", Consumes)]);
    ("TimeSeriesMap.add_raster_series", [("", Consumes)]) ].

Definition role (tl param : string) : option Role :=
  match lookup tl roles with
  | Some l => lookup param l
  | None => None
  end.

Section Datasets.
Context {F : Type}.

(** The names an invocation passes under keywords of the given role,
    as strings (a list handed over from a listing is not among them). *)
Definition names_with (r : Role) (i : Invocation F) : list (string * string) :=
  flat_map (fun pa : string * Arg F =>
              match role (tool i) (fst pa), snd pa with
              | Some Consumes, AStr s => match r with Consumes => [(fst pa, s)] | Produces => [] end
              | Some Produces, AStr s => match r with Produces => [(fst pa, s)] | Consumes => [] end
              | _, _ => []
              end) (args i).

(** [missing known evs]: the inputs, in the order of the invocations,
    that no earlier invocation of the sequence names as an output. *)
Fixpoint missing (known : list string) (evs : list (Event F))
  : list (nat * string * string * string) :=
  match evs with
  | [] => []
  | ev :: rest =>
      let i := ev_inv ev in
      map (fun ps => (line i, tool i, fst ps, snd ps))
          (filter (fun ps => negb (mem (snd ps) known)) (names_with Consumes i))
      ++ missing (map snd (names_with Produces i) ++ known) rest
  end.


(** What an invocation says about datasets: its line, its tool, and the
    names it passes as strings under its dataset keywords. *)
Definition dataset_args (i : Invocation F) : nat * string * list (string * string) :=
  (line i, tool i, (names_with Consumes i ++ names_with Produces i)%list).

(** [l] is a beginning of [p]. *)
Fixpoint begins {A} (l p : list A) : Prop :=
  match l, p with
  | [], _ => True
  | a :: l', b :: p' => a = b /\ begins l' p'
  | _ :: _, [] => False
  end.

(** The events a run adds to the log. *)
Definition performed (env : Env F) (sub : string -> World F -> bool * World F)
           {A} (p : Prog F A) (w : World F) : list (Event F) :=
  skipn (List.length (log w)) (log (snd (exec env sub p w))).

Definition completed (ev : Event F) : bool :=
  match ev_result ev with inr _ => true | inl _ => false end.

(** A failing call of the Python interface ends the run of [p]: when an
    invocation that raises was performed, the run ended with its exception
    and performed nothing after it. *)
Definition propagates_in (env : Env F) (sub : string -> World F -> bool * World F)
           {A} (p : Prog F A) : Prop :=
  forall w ev e,
    In ev (performed env sub p w) ->
    ev_result ev = inl e ->
    raises (api (ev_inv ev)) = true ->
    fst (exec env sub p w) = inl e
    /\ exists pre, performed env sub p w = (pre ++ [ev])%list.

(** The dataset names a cell passes are fixed: there is one list such
    that, whatever the environment and the state, the invocations the cell
    performs pass, in order, the names of a beginning of that list. *)
Definition names_fixed (c : Prog F unit) : Prop :=
  exists plan, forall (env : Env F) w,
    begins (map (fun ev => dataset_args (ev_inv ev)) (performed env (run_file env) c w)) plan.


(** An invocation that is none of the scripts': not from the lines of
    their three calls, and neither v.out.ascii nor r.drain. *)
Definition outside_scripts (i : Invocation F) : Prop :=
  negb (existsb (Nat.eqb (line i)) [1008; 1080; 1089]%nat)
  && negb (mem (tool i) ["v.out.ascii"; "r.drain"]) = true.

Definition no_write (op : InterpOp F) : Prop :=
  match op with WriteFile _ _ => False | _ => True end.



Definition leaves_files (env : Env F) (c : Prog F unit) : Prop :=
  forall w, files (snd (run_cell env c w)) = files w.

(** The session after a list of events. *)
Definition mask_after (evs : list (Event F)) (m : option string) : option string :=
  fold_left (fun m ev => if completed ev then mask_step (ev_inv ev) m else m) evs m.

Definition region_after (evs : list (Event F)) (r : list (list (string * Arg F)))
  : list (list (string * Arg F)) :=
  fold_left (fun r ev => if completed ev then region_step (ev_inv ev) r else r) evs r.


(** What the run of a program does to the log and to the session. *)
Definition extends (w w' : World F) (evs : list (Event F)) : Prop :=
  log w' = (log w ++ evs)%list
  /\ mask w' = mask_after evs (mask w)
  /\ region w' = region_after evs (region w).





(** line 968: gs.run_command("r.mask", flags="r") *)
Definition r_mask_remove : Invocation F := mkInv 968 RunCommand "r.mask" ["r"] [].










Definition any_op (op : InterpOp F) : Prop := True.

Definition any_call (i : Invocation F) : Prop := True.



(** Names the checkpoint notebook reads and no cell of it writes. *)
Definition never_written : list string :=
  ["lagoon_points"; "relief"; "inundation"; "streams"; "direction"; "basin_13";
   "pcurvature"; "drain_vector"].

Definition writes_none_of (l : list string) (i : Invocation F) : bool :=
  forallb (fun ps : string * string => negb (mem (snd ps) l)) (names_with Produces i).






(** Properties of the nodes of a program: every invocation it can
    perform satisfies [P], every interpreter step it can take [Q]. *)
Inductive Nodes (P : Invocation F -> Prop) (Q : InterpOp F -> Prop) (R : Prop)
  : forall {A}, Prog F A -> Prop :=
| N_Ret : forall A (a : A), Nodes P Q R (Ret a)
| N_Raise : forall A e, Nodes P Q R (@Raise F A e)
| N_Call : forall A i (k : Output F -> Prog F A),
    P i -> (forall out, Nodes P Q R (k out)) -> Nodes P Q R (Call i k)
| N_Interp : forall A op (k : Prog F A),
    Q op -> Nodes P Q R k -> Nodes P Q R (Interp op k)
| N_ReadDf : forall A (k : Table F -> Prog F A),
    (forall t, Nodes P Q R (k t)) -> Nodes P Q R (ReadDf k)
| N_RunFile : forall A file (k : Prog F A),
    R -> Nodes P Q R k -> Nodes P Q R (RunFile file k).

(** A program in which no [try] statement occurs. *)
Definition no_handler {A} (p : Prog F A) : Prop := Nodes any_call any_op True p.

(** The first invocation of [get_coordinates] and of [myanalysis]. *)
Definition v_out_ascii (points : string) : Invocation F :=
  mkInv 1080 ReadCommand "v.out.ascii" [] [("input", AStr points); ("separator", AStr "comma")].

Definition r_drain (elevation : string) (coordinates : list (list F)) : Invocation F :=
  mkInv 1089 RunCommand "r.drain" []
    [("input", AStr elevation); ("output", AStr "drain");
     ("drain", AStr "drain_vector"); ("start_coordinates", ACoords coordinates)].

Definition r_slope_aspect (elevation : string) : Invocation F :=
  mkInv 1008 RunCommand "r.slope.aspect" []
    [("elevation", AStr elevation); ("pcurvature", AStr "pcurvature")].

(** The pair read from a line of v.out.ascii: the first two of its
    comma-separated fields, each converted by [float]. *)
Definition parses_as (float : string -> Res F) (ln : string) (c : list F) : Prop :=
  exists f0 f1 rest x y,
    split comma ln = f0 :: f1 :: rest
    /\ float f0 = inr x /\ float f1 = inr y /\ c = [x; y].

(** A function has a contract of its own when its result is a fixed
    function [g] of the text its invocation [i] returns, whatever the
    environment, and [g] has more than one value. *)
Definition has_own_contract {R} (f : string -> Prog F R) (i : string -> Invocation F) : Prop :=
  exists g : string -> Res R,
    (forall env sub w a out,
        respond env (log w) (i a) = inr out ->
        fst (exec env sub (f a) w) = g (stdout out))
    /\ exists t1 t2 r1 r2, g t1 = inr r1 /\ g t2 = inr r2 /\ r1 <> r2.

(** A function performs the same invocations on every input when the
    tools it calls, in order, are the same in all runs that end normally. *)
Definition same_invocations (f : string -> string -> Prog F unit) : Prop :=
  exists tools : list string,
    forall env sub w a b,
      (exists u, fst (exec env sub (f a b) w) = inr u) ->
      map (fun ev => tool (ev_inv ev)) (performed env sub (f a b) w) = tools.

End Datasets.

(* ------------------------------------------------------------------ *)
(** ** Environments the examples run in *)
(* ------------------------------------------------------------------ *)

Definition python_dir : string := "/usr/lib/python3".
Definition grass_dir : string := "/usr/lib/grass/etc/python".

Definition sample_provides (dir module : string) : bool :=
  (String.eqb dir python_dir && mem module ["subprocess"; "sys"; "pathlib"; "pandas"])
  || (String.eqb dir grass_dir && mem module ["grass"; "grass.script"; "grass.jupyter"]).

(** The rationals have no NaN.  The examples mark it by the unreduced
    fraction 0/2, which no literal yields; their tables are complete, so
    it is never read. *)
Definition sample_nan : Q := Qmake 0 2.

Definition sample_table : Table Q :=
  map (fun n : nat => [("cat", inject_Z (Z.of_nat (S n)));
                       ("x", inject_Z (703000 + Z.of_nat n));
                       ("y", inject_Z (128000 + Z.of_nat n))])
      (seq 0 9).

(** Every invocation completes; [points_text] is what v.out.ascii prints. *)
Definition sample_respond (points_text : string) (hist : list (Event Q)) (i : Invocation Q)
  : Res (Output Q) :=
  match api i with
  | CheckOutput => inr (mkOut (grass_dir ++ nl) [] None)
  | ReadCommand => inr (mkOut points_text [] None)
  | ParseCommand => inr (mkOut "" [] (Some sample_table))
  | Wrapper => if tool i =? "gs.list_strings"
               then inr (mkOut "" ["depth.01"; "depth.02"] None)
               else inr no_output
  | _ => inr no_output
  end.

Definition two_points : string :=
  "702950.5,128500.25,1" ++ nl ++ "703100,129000.75,2" ++ nl.

Definition sample_env (points_text : string) : Env Q :=
  mkEnv (sample_respond points_text) sample_provides [python_dir; grass_dir] decimal_literal
        sample_nan.

(** The environment of [sample_env] with one tool failing. *)
Definition failing_env (tl : string) : Env Q :=
  mkEnv (fun hist i => if tool i =? tl then inl (CalledModuleError tl)
                       else sample_respond two_points hist i)
        sample_provides [python_dir; grass_dir] decimal_literal sample_nan.

Definition no_sub {F} : string -> World F -> bool * World F := fun _ w => (false, w).

(** The environment of [sample_env] with r.mask -r failing when no mask
    is set, as the engine's does. *)
Definition grass_like_env : Env Q :=
  mkEnv (fun hist i =>
           if (tool i =? "r.mask") && has_flag "r" i
              && match mask_after hist None with None => true | Some _ => false end
           then inl (CalledModuleError "r.mask")
           else sample_respond two_points hist i)
        sample_provides [python_dir; grass_dir] decimal_literal sample_nan.

(** The environment of [sample_env] with r.mask -r failing always. *)
Definition stuck_mask_env : Env Q :=
  mkEnv (fun hist i =>
           if (tool i =? "r.mask") && has_flag "r" i
           then inl (CalledModuleError "r.mask")
           else sample_respond two_points hist i)
        sample_provides [python_dir; grass_dir] decimal_literal sample_nan.

(** What no cell does: a cell that lists the rasters and takes the
    first one as the input of r.relief. *)
Definition choosing_cell : Prog Q unit :=
  out <- Call (mkInv 0 Wrapper "gs.list_strings" [] [("type", AStr "raster")]) Ret ;;
  match names out with
  | [] => Ret tt
  | n :: _ => gs_run_command 0 "r.relief" [] [("input", AStr n); ("output", AStr "relief")]
  end.

(** What no cell does: the r.watershed call of line 614 inside a handler
    that swallows the failure, followed by the display of the result. *)
Definition recovering_watershed : Prog Q unit :=
  Try Checkpoint.cell_watershed (fun _ => Ret tt) Checkpoint.cell_accumulation_map.

(* ------------------------------------------------------------------ *)
(** ** Notions for the properties of the functions and the cells *)
(* ------------------------------------------------------------------ *)

Fixpoint count_char (c : ascii) (s : string) : nat :=
  match s with
  | EmptyString => 0
  | String d rest => (if Ascii.eqb d c then 1 else 0) + count_char c rest
  end.

Fixpoint last_char (s : string) : option ascii :=
  match s with
  | EmptyString => None
  | String c EmptyString => Some c
  | String _ rest => last_char rest
  end.

(** The text is not empty and does not end in a line boundary. *)
Definition ends_in_text (s : string) : bool :=
  match last_char s with
  | Some c => negb (is_linebreak c)
  | None => false
  end.

(** [float] accepts the fields of the line that get_coordinates reads. *)
Definition accepted {F} (float : string -> Res F) (ln : string) : Prop :=
  Forall (fun f => exists x, float f = inr x) (firstn 2 (split comma ln)).

(** Reading the line, get_coordinates meets [e]: [float] raises it on the
    first field, or accepts the first field and raises it on the second. *)
Definition rejected {F} (float : string -> Res F) (ln : string) (e : Exc) : Prop :=
  exists f0 rest,
    split comma ln = f0 :: rest
    /\ (float f0 = inl e
        \/ exists x f1 rest', float f0 = inr x /\ rest = f1 :: rest' /\ float f1 = inl e).

(** The state of the interpreter and of the session, the log left out. *)
Definition same_state {F} (w w' : World F) : Prop :=
  sys_path w' = sys_path w /\ bound w' = bound w /\ df w' = df w /\ files w' = files w
  /\ mask w' = mask w /\ region w' = region w.


(** line 970: the settings of gs.run_command("g.region", n=..., flags="a") *)
Definition region_reset {F} : list (string * Arg F) :=
  [("n", ANum "131934"); ("s", ANum "126825"); ("w", ANum "702726");
   ("e", ANum "708443"); ("res", ANum "3")].

(** A tool that acts neither on the mask nor on the region. *)
Definition session_neutral {F} (i : Invocation F) : Prop :=
  negb (tool i =? "r.mask") && negb (tool i =? "g.region") = true.

Definition line_at_most {F} (n : nat) (i : Invocation F) : Prop :=
  (line i <=? n)%nat = true.


(** line 830, with the coordinates read from the data frame *)
Definition r_water_outlet {F} (x y : F) : Invocation F :=
  mkInv 830 RunCommand "r.water.outlet" []
    [("input", AStr "direction"); ("output", AStr "basin_15"); ("coordinates", AFloats [x; y])].


(** The names a sequence of invocations writes, added to [known]. *)
Definition written {F} (known : list string) (evs : list (Event F)) : list string :=
  fold_left (fun k ev => (map snd (names_with Produces (ev_inv ev)) ++ k)%list) evs known.

(** Every dataset the invocation reads is among [K]. *)
Definition reads_from {F} (K : list string) (i : Invocation F) : Prop :=
  forallb (fun ps : string * string => mem (snd ps) K) (names_with Consumes i) = true.

(** An interpreter step that binds neither gs nor gj. *)
Definition binds_other {F} (op : InterpOp F) : Prop :=
  match op with
  | Import _ n => negb (n =? "gs") && negb (n =? "gj") = true
  | _ => True
  end.

(** The log reads nothing unwritten, the names of [K] are written, and a
    kernel that knows gj knows gs. *)
Definition ordered {F} (K : list string) (w : World F) : Prop :=
  missing [] (log w) = []
  /\ Forall (fun n => mem n (written [] (log w)) = true) K
  /\ (mem "gj" (bound w) = true -> mem "gs" (bound w) = true).

(** The same once the cell of r.relief has run: a kernel that knows gs
    has written relief. *)
Definition ordered_relief {F} (K : list string) (w : World F) : Prop :=
  ordered K w
  /\ (mem "gs" (bound w) = true -> mem "relief" (written [] (log w)) = true).

(** A chain of invariants along the cells, each of which gives [G]. *)
Inductive Phased {F} (env : Env F) (G : World F -> Prop)
  : (World F -> Prop) -> list (Prog F unit) -> Prop :=
| Ph_nil : forall I : World F -> Prop,
    (forall w, I w -> G w) -> Phased env G I []
| Ph_cons : forall (I I' : World F -> Prop) c rest,
    (forall w, I w -> G w) ->
    (forall w, I w -> I' (snd (run_cell env c w))) ->
    Phased env G I' rest ->
    Phased env G I (c :: rest).


(** The call of line 74: subprocess.check_output(["grass", "--config", "python_path"]) *)
Definition grass_config {F} : Invocation F :=
  mkInv 74 CheckOutput "grass" ["config"] [("", AStr "python_path")].

(** Every invocation made through a Python function completes; the
    commands of the [!] lines may fail. *)
Definition python_calls_complete {F} (env : Env F) : Prop :=
  forall hist i, raises (api i) = true -> exists out, respond env hist i = inr out.

(** The standard modules are on the path the kernel starts with, and the
    directory [grass --config python_path] prints holds the two packages. *)
Definition modules_found {F} (env : Env F) (path : list string) : Prop :=
  Forall (fun m => existsb (fun dir => provides env dir m) path = true)
         ["subprocess"; "sys"; "pathlib"]
  /\ forall hist out,
       respond env hist grass_config = inr out ->
       provides env (strip (stdout out)) "grass.script" = true
       /\ provides env (strip (stdout out)) "grass.jupyter" = true.

(** A cell that only reads names of [B] and makes invocations. *)
Inductive Straight {F} (B : list string) : Prog F unit -> Prop :=
| St_Ret : Straight B (Ret tt)
| St_Call : forall i k, (forall out, Straight B (k out)) -> Straight B (Call i k)
| St_Need : forall n k, mem n B = true -> Straight B k -> Straight B (Interp (Need n) k).

(** A chain of invariants along cells that all complete. *)
Inductive Completes {F} (env : Env F)
  : (World F -> Prop) -> list (Prog F unit) -> Prop :=
| Co_nil : forall I : World F -> Prop, Completes env I []
| Co_cons : forall (I I' : World F -> Prop) c rest,
    (forall w, I w -> fst (run_cell env c w) = inr tt /\ I' (snd (run_cell env c w))) ->
    Completes env I' rest ->
    Completes env I (c :: rest).

(** The names a kernel must know, known. *)
Definition knows {F} (B : list string) (w : World F) : Prop :=
  Forall (fun n => mem n (bound w) = true) B.


(** The environment of [sample_env] with every [!] command failing. *)
Definition shell_failing_env : Env Q :=
  mkEnv (fun hist i => match api i with
                       | Shell => inl (OtherError 1)
                       | _ => sample_respond two_points hist i
                       end)
        sample_provides [python_dir; grass_dir] decimal_literal sample_nan.


(** The table [t] is what a completed v.db.select (line 798) of the log
    returned. *)
Definition selected {F} (t : Table F) (l : list (Event F)) : Prop :=
  exists ev out,
    In ev l /\ line (ev_inv ev) = 798%nat /\ ev_result ev = inr out /\ records out = Some t.

(** [df.loc[row, col]] on the frame of [t], in terms of the records. *)
Definition loc_of_records {F} (fill : F) (t : Table F) (row : nat) (col : string) : Res F :=
  if has_column col t then
    match nth_error t row with
    | None => inl (KeyError (Row row))
    | Some r => inr (match lookup col r with Some v => v | None => fill end)
    end
  else inl (KeyError (Label col)).

(** Every r.water.outlet (line 830) of the log [l], which follows the
    events [seen], got the x and y of record 8 of a table selected before
    it, NaN ([fill]) standing for a value the record does not have. *)
Fixpoint fed_after {F} (fill : F) (seen l : list (Event F)) : Prop :=
  match l with
  | [] => True
  | ev :: l' =>
      (line (ev_inv ev) = 830%nat ->
       exists t x y,
         selected t seen
         /\ loc_of_records fill t 8%nat "x" = inr x
         /\ loc_of_records fill t 8%nat "y" = inr y
         /\ ev_inv ev = r_water_outlet x y)
      /\ fed_after fill (seen ++ [ev]) l'
  end.

Definition outlets_fed {F} (fill : F) (l : list (Event F)) : Prop := fed_after fill [] l.

(** The data frame is the frame of a selected table, and the outlets are
    fed. *)
Definition frame_selected {F} (env : Env F) (w : World F) : Prop :=
  (forall t', df w = Some t' -> exists t, selected t (log w) /\ t' = frame (nan env) t)
  /\ outlets_fed (nan env) (log w).

(** line 798: gs.parse_command("v.db.select", map="stream_points", ...) *)
Definition v_db_select {F} : Invocation F :=
  mkInv 798 ParseCommand "v.db.select" []
    [("map", AStr "stream_points"); ("columns", AStr "cat,x,y"); ("format", AStr "json")].

(** The sample table with the x of record 8 missing. *)
Definition gapped_table : Table Q :=
  (firstn 8 sample_table
   ++ [[("cat", inject_Z 9); ("y", inject_Z 128008)]])%list.

Definition not_outlet {F} (i : Invocation F) : Prop := negb (line i =? 830)%nat = true.

Definition keeps_df {F} (op : InterpOp F) : Prop :=
  match op with SetDf _ => False | _ => True end.

(* ------------------------------------------------------------------ *)
(** ** What the cells change in the interpreter *)
(* ------------------------------------------------------------------ *)





(* ------------------------------------------------------------------ *)
(** ** The text of a points layer *)
(* ------------------------------------------------------------------ *)

(** Every character of [s] satisfies [p]. *)
Fixpoint all_chars (p : ascii -> bool) (s : string) : bool :=
  match s with
  | EmptyString => true
  | String c rest => p c && all_chars p rest
  end.

(** A field holds neither a line boundary nor a comma. *)
Definition plain_field (s : string) : bool :=
  all_chars (fun c => negb (is_linebreak c) && negb (Ascii.eqb c comma)) s.

(** [",".join(fs)] *)
Fixpoint join_fields (fs : list string) : string :=
  match fs with
  | [] => ""
  | f :: rest => match rest with [] => f | _ :: _ => f ++ String comma (join_fields rest) end
  end.

(** The lines of a text, each closed by a newline. *)
Fixpoint unlines (ls : list string) : string :=
  match ls with
  | [] => ""
  | l :: rest => l ++ nl ++ unlines rest
  end.

(** A point as v.out.ascii prints it with separator=comma: the field of
    x and the float it reads as, the field of y and its float, and the
    fields after them. *)
Definition PointLine (F : Type) : Type := ((string * F) * (string * F) * list string)%type.

Definition line_fields {F} (p : PointLine F) : list string :=
  let '((fx, _), (fy, _), rest) := p in fx :: fy :: rest.

Definition line_pair {F} (p : PointLine F) : list F :=
  let '((_, x), (_, y), _) := p in [x; y].

(** [float] reads the two coordinates, and the fields are plain. *)
Definition reads_as {F} (float : string -> Res F) (p : PointLine F) : Prop :=
  let '((fx, x), (fy, y), rest) := p in
  float fx = inr x /\ float fy = inr y /\ forallb plain_field (fx :: fy :: rest) = true.

(** What v.out.ascii prints for the points. *)
Definition points_text {F} (pts : list (PointLine F)) : string :=
  unlines (map (fun p => join_fields (line_fields p)) pts).

(* ------------------------------------------------------------------ *)
(** ** Rules of the execution *)
(* ------------------------------------------------------------------ *)

Lemma skipn_length_app : forall {A} (l evs : list A),
  skipn (List.length l) (l ++ evs)%list = evs.
Proof.
  intros A l evs. induction l as [|a l IH]; simpl; auto.
Qed.

Section Rules.
Context {F : Type} (env : Env F).

Lemma invoke_result : forall (i : Invocation F) w,
  fst (invoke env i w) = respond env (log w) i.
Proof.
  intros i w. unfold invoke. destruct (respond env (log w) i); reflexivity.
Qed.

Lemma invoke_log : forall (i : Invocation F) w,
  log (snd (invoke env i w)) = (log w ++ [mkEvent i (mask w) (respond env (log w) i)])%list.
Proof.
  intros i w. unfold invoke. destruct (respond env (log w) i); reflexivity.
Qed.

Lemma invoke_interpreter : forall (i : Invocation F) w,
  sys_path (snd (invoke env i w)) = sys_path w
  /\ bound (snd (invoke env i w)) = bound w
  /\ df (snd (invoke env i w)) = df w
  /\ files (snd (invoke env i w)) = files w.
Proof.
  intros i w. unfold invoke. destruct (respond env (log w) i); simpl; auto.
Qed.

Lemma invoke_session : forall (i : Invocation F) w,
  let ev := mkEvent i (mask w) (respond env (log w) i) in
  mask (snd (invoke env i w)) = mask_after [ev] (mask w)
  /\ region (snd (invoke env i w)) = region_after [ev] (region w).
Proof.
  intros i w. unfold invoke, mask_after, region_after, completed. simpl.
  destruct (respond env (log w) i); simpl; auto.
Qed.

Lemma interp_step_session : forall (op : InterpOp F) w w',
  interp_step env op w = inr w' ->
  log w' = log w /\ mask w' = mask w /\ region w' = region w.
Proof.
  intros op w w' H. destruct op; simpl in H.
  - inversion H; subst; simpl; auto.
  - destruct (existsb _ _); inversion H; subst; simpl; auto.
  - destruct (mem _ _); inversion H; subst; auto.
  - inversion H; subst; simpl; auto.
  - inversion H; subst; simpl; auto.
Qed.

(** Sequencing: the second statement runs in the state the first one
    leaves, unless the first one raises. *)
Lemma exec_bind : forall sub A B (p : Prog F A) (f : A -> Prog F B) w,
  exec env sub (bind p f) w =
  match exec env sub p w with
  | (inr a, w') => exec env sub (f a) w'
  | (inl e, w') => (inl e, w')
  end.
Proof.
  intros sub A B p f.
  induction p as [A a|A e|A i k IH|A op k IH|A k IH|A file k IH|A b _ h _ k IH];
    intros w; simpl.
  - reflexivity.
  - reflexivity.
  - destruct (invoke env i w) as [r w']. destruct r as [e|out].
    + destruct (raises (api i)); auto.
    + auto.
  - destruct (interp_step env op w); auto.
  - destruct (df w); auto.
  - destruct (sub file w) as [ok w']. destruct ok; auto.
  - destruct (exec env sub b w) as [[e|u] w'].
    + destruct (exec env sub (h e) w') as [[e'|u'] w'']; auto.
    + auto.
Qed.

(** An invariant that every node of a program keeps is kept by its run. *)
Lemma exec_preserves :
  forall sub (I : World F -> Prop) (P : Invocation F -> Prop) (Q : InterpOp F -> Prop) (R : Prop),
    (forall i w, P i -> I w -> I (snd (invoke env i w))) ->
    (forall op w w', Q op -> I w -> interp_step env op w = inr w' -> I w') ->
    (forall file w, R -> I w -> I (snd (sub file w))) ->
    forall A (p : Prog F A), Nodes P Q R p ->
    forall w, I w -> I (snd (exec env sub p w)).
Proof.
  intros sub I P Q R Hcall Hop Hsub A p Hn.
  induction Hn as [A a|A e|A i k Hi Hk IH|A op k Hq Hk IH|A k Hk IH|A file k Hr Hk IH];
    intros w Hw; simpl.
  - exact Hw.
  - exact Hw.
  - specialize (Hcall i w Hi Hw).
    destruct (invoke env i w) as [r w']. simpl in Hcall.
    destruct r as [e|out].
    + destruct (raises (api i)); simpl; auto.
    + auto.
  - destruct (interp_step env op w) as [e|w'] eqn:E; simpl; eauto.
  - destruct (df w); simpl; auto.
  - specialize (Hsub file w Hr Hw).
    destruct (sub file w) as [ok w']. simpl in Hsub.
    destruct ok; simpl; auto.
Qed.

Lemma extends_refl : forall w : World F, extends w w [].
Proof. intros w. unfold extends. rewrite app_nil_r. auto. Qed.

Lemma extends_trans : forall (w1 w2 w3 : World F) e1 e2,
  extends w1 w2 e1 -> extends w2 w3 e2 -> extends w1 w3 (e1 ++ e2)%list.
Proof.
  unfold extends, mask_after, region_after.
  intros w1 w2 w3 e1 e2 (L1 & M1 & R1) (L2 & M2 & R2).
  rewrite L2, L1, M2, M1, R2, R1, !fold_left_app, app_assoc. auto.
Qed.

Lemma extends_invoke : forall i w,
  extends w (snd (invoke env i w)) [mkEvent i (mask w) (respond env (log w) i)].
Proof.
  intros i w. unfold extends. rewrite invoke_log.
  destruct (invoke_session i w) as [M R]. auto.
Qed.

Lemma exec_extends : forall sub,
  (forall file w, exists evs, extends w (snd (sub file w)) evs) ->
  forall A (p : Prog F A) w, exists evs, extends w (snd (exec env sub p w)) evs.
Proof.
  intros sub Hsub A p.
  induction p as [A a|A e|A i k IH|A op k IH|A k IH|A file k IH|A b IHb h IHh k IH];
    intros w; simpl.
  - exists []. apply extends_refl.
  - exists []. apply extends_refl.
  - pose proof (extends_invoke i w) as E.
    destruct (invoke env i w) as [r w']. simpl in E.
    destruct r as [e|out].
    + destruct (raises (api i)).
      * eexists. exact E.
      * destruct (IH no_output w') as [evs E']. eexists. eapply extends_trans; eauto.
    + destruct (IH out w') as [evs E']. eexists. eapply extends_trans; eauto.
  - destruct (interp_step env op w) as [e|w'] eqn:E.
    + exists []. apply extends_refl.
    + destruct (interp_step_session _ _ _ E) as (L & M & R).
      destruct (IH w') as [evs (L' & M' & R')]. exists evs.
      unfold extends. simpl. rewrite L', M', R', L, M, R. auto.
  - destruct (df w).
    + apply IH.
    + exists []. apply extends_refl.
  - destruct (Hsub file w) as [e1 E1].
    destruct (sub file w) as [ok w']. simpl in E1.
    destruct ok.
    + destruct (IH w') as [e2 E2]. eexists. eapply extends_trans; eauto.
    + eexists. exact E1.
  - destruct (IHb w) as [e1 E1].
    destruct (exec env sub b w) as [[e|u] w']; simpl in E1.
    + destruct (IHh e w') as [e2 E2].
      destruct (exec env sub (h e) w') as [[e'|u'] w'']; simpl in E2.
      * eexists. eapply extends_trans; eauto.
      * destruct (IH w'') as [e3 E3]. eexists.
        eapply extends_trans; [eapply extends_trans; eauto|exact E3].
    + destruct (IH w') as [e2 E2]. eexists. eapply extends_trans; eauto.
Qed.


End Rules.

Section NotebookRules.
Context {F : Type} (env : Env F).

Lemma run_file_extends : forall file w,
  exists evs, extends w (snd (run_file env file w)) evs.
Proof.
  intros file w. unfold run_file.
  destruct (lookup file (files w)) as [s|].
  - set (child := mkWorld (child_path env) [] None (files w) (mask w) (region w) (log w)).
    destruct (exec_extends env no_sub
                (fun _ w0 => ex_intro _ [] (extends_refl w0))
                _ (script_main (pyfloat env) s) child) as [evs E].
    unfold exec_script. fold (@no_sub F).
    destruct (exec env no_sub (script_main (pyfloat env) s) child) as [r c].
    exists evs. exact E.
  - exists []. apply extends_refl.
Qed.




Lemma run_notebook_preserves : forall (I : World F -> Prop) kg cells,
  Forall (fun c => forall w, I w -> I (snd (run_cell env c w))) cells ->
  forall w, I w -> I (snd (run_notebook env kg cells w)).
Proof.
  intros I kg cells H. induction H as [|c rest Hc _ IH]; intros w Hw; simpl.
  - exact Hw.
  - specialize (Hc w Hw). destruct (run_cell env c w) as [r w']. simpl in Hc.
    specialize (IH w' Hc).
    destruct (run_notebook env kg rest w') as [rs w'']. simpl in IH.
    destruct r; [destruct kg|]; simpl; auto.
Qed.

Lemma run_one : forall kg c w,
  snd (run_notebook env kg [c] w) = snd (run_cell env c w).
Proof.
  intros kg c w. simpl. destruct (run_cell env c w) as [r w'].
  destruct r; destruct kg; reflexivity.
Qed.

(** Stepping through: the cells of a later part run in the state the
    earlier part leaves. *)
Lemma run_keep_going_app : forall l1 l2 w,
  snd (run_notebook env true (l1 ++ l2) w)
  = snd (run_notebook env true l2 (snd (run_notebook env true l1 w))).
Proof.
  induction l1 as [|c l1 IH]; intros l2 w; simpl.
  - reflexivity.
  - destruct (run_cell env c w) as [r w']. specialize (IH l2 w').
    destruct (run_notebook env true (l1 ++ l2) w') as [rs w''].
    destruct (run_notebook env true l1 w') as [rs1 w1]. simpl in IH.
    destruct r; simpl; exact IH.
Qed.


End NotebookRules.

Create HintDb cells.
#[global] Hint Unfold need import_as sh gs_run_command wrapper df_loc
  GettingStarted.cell_imports GettingStarted.cell_python_path GettingStarted.cell_import_grass
  GettingStarted.cell_create_project GettingStarted.cell_empty GettingStarted.cell_init
  GettingStarted.cell_relief GettingStarted.cell_example_map
  GettingStarted.cell_interactive_map GettingStarted.cell_shaded_map
  Checkpoint.cell_imports Checkpoint.cell_python_path Checkpoint.cell_import_grass
  Checkpoint.cell_empty Checkpoint.cell_init Checkpoint.cell_example_map
  Checkpoint.cell_interactive_map Checkpoint.cell_watershed Checkpoint.cell_accumulation_map
  Checkpoint.cell_path Checkpoint.cell_drain_map Checkpoint.cell_extension_hand
  Checkpoint.cell_hand Checkpoint.cell_inundation_map Checkpoint.cell_extract
  Checkpoint.cell_streams_map Checkpoint.cell_table Checkpoint.cell_point
  Checkpoint.cell_outlet Checkpoint.cell_region_basin Checkpoint.cell_mask
  Checkpoint.cell_sim_water Checkpoint.cell_register Checkpoint.cell_flow_map
  Checkpoint.cell_unmask Checkpoint.cell_write Checkpoint.cell_python
  Checkpoint.cell_curvature_map Checkpoint.cell_trace_map
  ProfileCurvatureScript.main ProfileCurvatureScript.myanalysis
  FlowTraceScript.main FlowTraceScript.myanalysis FlowTraceScript.get_coordinates
  script_main : cells.

(** Walks over the nodes of a cell. *)
Ltac nodes :=
  autounfold with cells;
  repeat (cbn;
          match goal with
          | |- Nodes _ _ _ (Ret _) => constructor
          | |- Nodes _ _ _ (Raise _) => constructor
          | |- Nodes _ _ _ (Call _ _) => constructor; [ try reflexivity; try exact I | intros ]
          | |- Nodes _ _ _ (Interp _ _) => constructor; [ try reflexivity; try exact I | ]
          | |- Nodes _ _ _ (ReadDf _) => constructor; intros
          | |- Nodes _ _ _ (RunFile _ _) => constructor; [ try exact I | ]
          | |- Nodes _ _ _ (lift ?r) => destruct r
          | |- Nodes _ _ _ (bind (lift ?r) _) => destruct r
          | |- Nodes _ _ _ (match ?c with [] => _ | _ :: _ => _ end) => destruct c
          | |- Nodes _ _ _ (match ?c with Some _ => _ | None => _ end) => destruct c
          | |- Nodes _ _ _ (match ?c with inl _ => _ | inr _ => _ end) => destruct c
          end).

(* ------------------------------------------------------------------ *)
(** ** The mask over the cells of the checkpoint notebook *)
(* ------------------------------------------------------------------ *)

Section Mask.
Context {F : Type} (env : Env F).













End Mask.

(* ------------------------------------------------------------------ *)
(** ** The functions of the scripts *)
(* ------------------------------------------------------------------ *)

Section Functions.
Context {F : Type} (env : Env F) (sub : string -> World F -> bool * World F).
Variable float : string -> Res F.

Lemma exec_lift : forall A (r : Res A) w, exec env sub (lift r) w = (r, w).
Proof. intros A r w. destruct r; reflexivity. Qed.

Lemma exec_get_coordinates : forall points w,
  exec env sub (FlowTraceScript.get_coordinates float points) w =
  (bindR (respond env (log w) (v_out_ascii points))
         (fun out => FlowTraceScript.coordinate_pairs float (splitlines (stdout out))),
   snd (invoke env (v_out_ascii points) w)).
Proof.
  intros points w. unfold FlowTraceScript.get_coordinates. simpl.
  fold (@v_out_ascii F points). unfold invoke.
  destruct (respond env (log w) (v_out_ascii points)) as [e|out]; simpl.
  - reflexivity.
  - apply exec_lift.
Qed.

Lemma performed_get_coordinates : forall points w,
  performed env sub (FlowTraceScript.get_coordinates float points) w
  = [mkEvent (v_out_ascii points) (mask w) (respond env (log w) (v_out_ascii points))].
Proof.
  intros points w. unfold performed. rewrite exec_get_coordinates. simpl.
  rewrite invoke_log. apply skipn_length_app.
Qed.

Lemma exec_curvature : forall elevation w,
  exec env sub (ProfileCurvatureScript.myanalysis elevation) w =
  (bindR (respond env (log w) (r_slope_aspect elevation)) (fun _ => inr tt),
   snd (invoke env (r_slope_aspect elevation) w)).
Proof.
  intros elevation w. unfold ProfileCurvatureScript.myanalysis. simpl.
  fold (@r_slope_aspect F elevation). unfold invoke.
  destruct (respond env (log w) (r_slope_aspect elevation)); reflexivity.
Qed.

Lemma exec_myanalysis : forall elevation points w,
  exec env sub (FlowTraceScript.myanalysis float elevation points) w =
  match exec env sub (FlowTraceScript.get_coordinates float points) w with
  | (inl e, w') => (inl e, w')
  | (inr [], w') => (inr tt, w')
  | (inr (c :: cs), w') =>
      (bindR (respond env (log w') (r_drain elevation (c :: cs))) (fun _ => inr tt),
       snd (invoke env (r_drain elevation (c :: cs)) w'))
  end.
Proof.
  intros elevation points w. unfold FlowTraceScript.myanalysis. rewrite exec_bind.
  destruct (exec env sub (FlowTraceScript.get_coordinates float points) w) as [[e|cs] w'].
  - reflexivity.
  - destruct cs as [|c cs]; [reflexivity|].
    simpl. fold (@r_drain F elevation (c :: cs)). unfold invoke.
    destruct (respond env (log w') (r_drain elevation (c :: cs))); reflexivity.
Qed.

Lemma comprehension_Forall2 : forall A B (f : A -> Res B) (R : A -> B -> Prop) l,
  Forall (fun a => exists b, f a = inr b /\ R a b) l ->
  exists bs, comprehension f l = inr bs /\ Forall2 R l bs.
Proof.
  intros A B f R l H. induction H as [|a l [b [Hb Hr]] _ [bs [Hbs HF]]]; simpl.
  - exists []. split; [reflexivity|constructor].
  - exists (b :: bs). rewrite Hb, Hbs. simpl. split; [reflexivity|constructor; assumption].
Qed.

Lemma pair_of_line : forall ln c,
  parses_as float ln c ->
  comprehension float (firstn 2 (split comma ln)) = inr c.
Proof.
  intros ln c (f0 & f1 & rest & x & y & Hs & H0 & H1 & Hc).
  rewrite Hs. simpl. rewrite H0, H1. simpl. subst c. reflexivity.
Qed.

End Functions.

Lemma append_nil_r : forall s : string, s ++ "" = s.
Proof. induction s as [|c s IH]; simpl; [reflexivity|rewrite IH; reflexivity]. Qed.

Lemma append_assoc : forall a b c : string, (a ++ b) ++ c = a ++ (b ++ c).
Proof. induction a as [|x a IH]; intros b c; simpl; [reflexivity|rewrite IH; reflexivity]. Qed.

Lemma snoc_append : forall line c s, snoc line c ++ s = line ++ String c s.
Proof. intros line c s. unfold snoc. rewrite append_assoc. reflexivity. Qed.

Lemma splitlines_from_char : forall c line s,
  is_linebreak c = false ->
  splitlines_from line (String c s) = splitlines_from (snoc line c) s.
Proof. intros c line s H. simpl. rewrite H. reflexivity. Qed.

Lemma splitlines_from_line : forall l line rest,
  all_chars (fun c => negb (is_linebreak c)) l = true ->
  splitlines_from line (l ++ nl ++ rest) = (line ++ l) :: splitlines_from "" rest.
Proof.
  induction l as [|c l IH]; intros line rest H.
  - rewrite append_nil_r. change ("" ++ nl ++ rest) with (String (ascii_of_nat 10) rest).
    simpl. destruct rest; reflexivity.
  - simpl in H. apply andb_prop in H. destruct H as [Hc Hl].
    apply negb_true_iff in Hc.
    change (String c l ++ nl ++ rest) with (String c (l ++ nl ++ rest)).
    rewrite (splitlines_from_char _ _ _ Hc), (IH _ _ Hl), snoc_append. reflexivity.
Qed.

Lemma splitlines_unlines : forall ls,
  Forall (fun l => all_chars (fun c => negb (is_linebreak c)) l = true) ls ->
  splitlines (unlines ls) = ls.
Proof.
  intros ls H. induction H as [|l ls Hl _ IH]; [reflexivity|].
  unfold splitlines in *. change (unlines (l :: ls)) with (l ++ nl ++ unlines ls).
  rewrite (splitlines_from_line _ _ _ Hl), IH.
  reflexivity.
Qed.

Lemma split_from_last : forall sep f field,
  all_chars (fun c => negb (Ascii.eqb c sep)) f = true ->
  split_from sep field f = [field ++ f].
Proof.
  intros sep. induction f as [|c f IH]; intros field H.
  - rewrite append_nil_r. reflexivity.
  - simpl in H. apply andb_prop in H. destruct H as [Hc Hf]. apply negb_true_iff in Hc.
    simpl. rewrite Hc, (IH _ Hf), snoc_append. reflexivity.
Qed.

Lemma split_from_field : forall sep f field rest,
  all_chars (fun c => negb (Ascii.eqb c sep)) f = true ->
  split_from sep field (f ++ String sep rest) = (field ++ f) :: split_from sep "" rest.
Proof.
  intros sep. induction f as [|c f IH]; intros field rest H.
  - rewrite append_nil_r. simpl. rewrite Ascii.eqb_refl. reflexivity.
  - simpl in H. apply andb_prop in H. destruct H as [Hc Hf]. apply negb_true_iff in Hc.
    simpl. rewrite Hc, (IH _ _ Hf), snoc_append. reflexivity.
Qed.

Lemma all_chars_impl : forall (p q : ascii -> bool) s,
  (forall c, p c = true -> q c = true) -> all_chars p s = true -> all_chars q s = true.
Proof.
  intros p q s Hpq. induction s as [|c s IH]; simpl; intros H; [reflexivity|].
  apply andb_prop in H. destruct H as [Hc Hs]. rewrite (Hpq c Hc), (IH Hs). reflexivity.
Qed.

Lemma all_chars_app : forall p a b,
  all_chars p a = true -> all_chars p b = true -> all_chars p (a ++ b) = true.
Proof.
  intros p. induction a as [|c a IH]; intros b Ha Hb; simpl in *; [exact Hb|].
  apply andb_prop in Ha. destruct Ha as [Hc Ha]. rewrite Hc, (IH b Ha Hb). reflexivity.
Qed.

Lemma plain_no_comma : forall f,
  plain_field f = true -> all_chars (fun c => negb (Ascii.eqb c comma)) f = true.
Proof.
  intros f. apply all_chars_impl. intros c H. apply andb_prop in H. exact (proj2 H).
Qed.

Lemma plain_no_linebreak : forall f,
  plain_field f = true -> all_chars (fun c => negb (is_linebreak c)) f = true.
Proof.
  intros f. apply all_chars_impl. intros c H. apply andb_prop in H. exact (proj1 H).
Qed.

Lemma split_join : forall f fs,
  forallb plain_field (f :: fs) = true -> split comma (join_fields (f :: fs)) = f :: fs.
Proof.
  intros f fs. revert f. induction fs as [|g fs IH]; intros f H.
  - simpl in H. apply andb_prop in H. destruct H as [Hf _].
    simpl. unfold split. rewrite (split_from_last comma f "" (plain_no_comma f Hf)). reflexivity.
  - simpl in H. apply andb_prop in H. destruct H as [Hf Hr].
    change (join_fields (f :: g :: fs)) with (f ++ String comma (join_fields (g :: fs))).
    unfold split. rewrite (split_from_field comma f "" _ (plain_no_comma f Hf)).
    change (split_from comma "" (join_fields (g :: fs))) with (split comma (join_fields (g :: fs))).
    rewrite (IH g Hr). reflexivity.
Qed.

Lemma join_no_linebreak : forall fs,
  forallb plain_field fs = true ->
  all_chars (fun c => negb (is_linebreak c)) (join_fields fs) = true.
Proof.
  induction fs as [|f fs IH]; intros H; [reflexivity|].
  simpl in H. apply andb_prop in H. destruct H as [Hf Hr].
  destruct fs as [|g fs]; [exact (plain_no_linebreak f Hf)|].
  change (join_fields (f :: g :: fs)) with (f ++ String comma (join_fields (g :: fs))).
  apply all_chars_app; [exact (plain_no_linebreak f Hf)|].
  change (all_chars (fun c => negb (is_linebreak c)) (String comma (join_fields (g :: fs))))
    with (negb (is_linebreak comma)
          && all_chars (fun c => negb (is_linebreak c)) (join_fields (g :: fs))).
  rewrite (IH Hr). reflexivity.
Qed.

Lemma comprehension_map : forall A B C (f : B -> Res C) (g : A -> B) (h : A -> C) l,
  Forall (fun a => f (g a) = inr (h a)) l ->
  comprehension f (map g l) = inr (map h l).
Proof.
  intros A B C f g h l H. induction H as [|a l Ha _ IH]; simpl; [reflexivity|].
  rewrite Ha, IH. reflexivity.
Qed.

Lemma pair_of_point : forall F (float : string -> Res F) (p : PointLine F),
  reads_as float p ->
  comprehension float (firstn 2 (split comma (join_fields (line_fields p))))
  = inr (line_pair p).
Proof.
  intros F float [[[fx x] [fy y]] rest] (Hx & Hy & Hp).
  unfold line_fields, line_pair. rewrite (split_join fx (fy :: rest) Hp).
  simpl. rewrite Hx. simpl. rewrite Hy. reflexivity.
Qed.

Lemma pairs_of_points : forall F (float : string -> Res F) (pts : list (PointLine F)),
  Forall (reads_as float) pts ->
  FlowTraceScript.coordinate_pairs float (splitlines (points_text pts))
  = inr (map line_pair pts).
Proof.
  intros F float pts H. unfold points_text. rewrite splitlines_unlines.
  - unfold FlowTraceScript.coordinate_pairs. apply comprehension_map.
    eapply Forall_impl; [|exact H]. intros p Hp. apply pair_of_point. exact Hp.
  - apply Forall_map. eapply Forall_impl; [|exact H].
    intros [[[fx x] [fy y]] rest] (_ & _ & Hp). apply join_no_linebreak. exact Hp.
Qed.

(** C5.  The text v.out.ascii prints for points, one line per point with
    the fields joined by commas and each line closed by a newline, is read
    back point by point: when [float] reads the first two fields of every
    line, get_coordinates returns the list of the pairs [x, y], one per
    line, in the order of the lines; for the empty text it returns the
    empty list.  The same holds for the lines of any text as
    [str.splitlines] cuts it, whatever the line boundaries are. *)
Theorem get_coordinates_pairs :
  forall F (env : Env F) sub (float : string -> Res F) w points out,
    respond env (log w) (v_out_ascii points) = inr out ->
    (forall pts : list (PointLine F),
        stdout out = points_text pts ->
        Forall (reads_as float) pts ->
        fst (exec env sub (FlowTraceScript.get_coordinates float points) w)
        = inr (map line_pair pts))
    /\ (Forall (fun ln => exists c, parses_as float ln c) (splitlines (stdout out)) ->
        exists coords,
          fst (exec env sub (FlowTraceScript.get_coordinates float points) w) = inr coords
          /\ Forall2 (parses_as float) (splitlines (stdout out)) coords
          /\ List.length coords = List.length (splitlines (stdout out))
          /\ (stdout out = "" -> coords = [])).
Proof.
  intros F env sub float w points out Hr. split.
  - intros pts Ht Hp. rewrite exec_get_coordinates, Hr. simpl. rewrite Ht.
    apply pairs_of_points. exact Hp.
  - intros Hl.
    rewrite exec_get_coordinates, Hr. simpl.
    destruct (comprehension_Forall2 _ _
                (fun point => comprehension float (firstn 2 (split comma point)))
                (parses_as float) (splitlines (stdout out))) as [coords [Hc HF]].
    + eapply Forall_impl; [|exact Hl]. intros ln [c Hp]. exists c.
      split; [apply pair_of_line; exact Hp|exact Hp].
    + exists coords. unfold FlowTraceScript.coordinate_pairs. rewrite Hc.
      repeat split.
      * exact HF.
      * symmetry. eapply Forall2_length. exact HF.
      * intros He. rewrite He in HF. inversion HF. reflexivity.
Qed.

Lemma get_coordinates_pairs_witness :
  fst (exec (sample_env two_points) no_sub
         (FlowTraceScript.get_coordinates decimal_literal "lagoon_points") (fresh []))
  = inr [[Qmake 1405901 2; Qmake 514001 4]; [inject_Z 703100; Qmake 516003 4]]
  /\ fst (exec (sample_env "") no_sub
            (FlowTraceScript.get_coordinates decimal_literal "lagoon_points") (fresh []))
     = inr [].
Proof.
  split.
  - apply (proj1 (get_coordinates_pairs Q (sample_env two_points) no_sub decimal_literal
                    (fresh []) "lagoon_points" (mkOut two_points [] None) eq_refl)
             [ (("702950.5", Qmake 1405901 2), ("128500.25", Qmake 514001 4), ["1"]);
               (("703100", inject_Z 703100), ("129000.75", Qmake 516003 4), ["2"]) ]).
    + reflexivity.
    + repeat constructor; vm_compute; reflexivity.
  - apply (proj1 (get_coordinates_pairs Q (sample_env "") no_sub decimal_literal
                    (fresh []) "lagoon_points" (mkOut "" [] None) eq_refl) []).
    + reflexivity.
    + constructor.
Defined.

(** C9.  When v.out.ascii completes and prints nothing, get_coordinates
    returns the empty list and myanalysis returns normally, having
    performed the one invocation of v.out.ascii and no r.drain.  The call
    of r.drain stands behind the test of [coordinates]: in no environment
    is r.drain invoked with an empty list of start coordinates. *)
Theorem myanalysis_empty_layer :
  forall F (env : Env F) sub (float : string -> Res F) w elevation points,
    (forall out,
        respond env (log w) (v_out_ascii points) = inr out ->
        stdout out = "" ->
        fst (exec env sub (FlowTraceScript.get_coordinates float points) w) = inr []
        /\ fst (exec env sub (FlowTraceScript.myanalysis float elevation points) w) = inr tt
        /\ performed env sub (FlowTraceScript.myanalysis float elevation points) w
           = [mkEvent (v_out_ascii points) (mask w) (inr out)])
    /\ Forall (fun ev => tool (ev_inv ev) = "r.drain" ->
                         exists c cs, ev_inv ev = r_drain elevation (c :: cs))
              (performed env sub (FlowTraceScript.myanalysis float elevation points) w).
Proof.
  intros F env sub float w elevation points. split.
  - intros out Hr He.
    assert (Hg : exec env sub (FlowTraceScript.get_coordinates float points) w
                 = (inr [], snd (invoke env (v_out_ascii points) w))).
    { rewrite exec_get_coordinates, Hr. simpl. rewrite He. reflexivity. }
    repeat split.
    + rewrite Hg. reflexivity.
    + rewrite exec_myanalysis, Hg. reflexivity.
    + unfold performed. rewrite exec_myanalysis, Hg. simpl.
      rewrite invoke_log, Hr. apply skipn_length_app.
  - unfold performed. rewrite exec_myanalysis, exec_get_coordinates.
    destruct (bindR (respond env (log w) (v_out_ascii points)) _) as [e|[|c cs]];
      cbv beta iota; simpl snd; simpl fst.
    + rewrite invoke_log, skipn_length_app. constructor; [discriminate|constructor].
    + rewrite invoke_log, skipn_length_app. constructor; [discriminate|constructor].
    + rewrite !invoke_log, <- app_assoc, skipn_length_app. simpl app.
      constructor; [discriminate|].
      constructor; [intros _; exists c, cs; reflexivity|constructor].
Qed.

Lemma myanalysis_empty_layer_witness :
  fst (exec (sample_env "") no_sub
         (FlowTraceScript.myanalysis decimal_literal "elevation" "lagoon_points") (fresh []))
  = inr tt
  /\ performed (sample_env "") no_sub
       (FlowTraceScript.myanalysis decimal_literal "elevation" "lagoon_points") (fresh [])
     = [mkEvent (v_out_ascii "lagoon_points") None (inr (mkOut "" [] None))].
Proof.
  destruct (proj1 (myanalysis_empty_layer Q (sample_env "") no_sub decimal_literal (fresh [])
                     "elevation" "lagoon_points") (mkOut "" [] None) eq_refl eq_refl)
    as (_ & H1 & H2).
  split; assumption.
Defined.

(** C3, as stated, fails.  The tools myanalysis (lines 1085-1089) calls
    are not the same on every input: on a points layer with two points it
    calls v.out.ascii and r.drain, on an empty one v.out.ascii alone; both
    runs end normally. *)
Lemma myanalysis_branches :
  ~ same_invocations (FlowTraceScript.myanalysis decimal_literal).
Proof.
  intros [tools H].
  pose proof (H (sample_env two_points) no_sub (fresh []) "elevation" "lagoon_points"
                (ex_intro _ tt eq_refl)) as H1.
  pose proof (H (sample_env "") no_sub (fresh []) "elevation" "lagoon_points"
                (ex_intro _ tt eq_refl)) as H2.
  vm_compute in H1. vm_compute in H2. rewrite <- H1 in H2. discriminate H2.
Qed.

(** C3, amended.  In every environment the first myanalysis performs the
    one invocation of r.slope.aspect and get_coordinates the one invocation
    of v.out.ascii; the second myanalysis performs v.out.ascii and then
    r.drain exactly when get_coordinates returned a non-empty list. *)
Theorem authored_invocations :
  forall F (env : Env F) sub (float : string -> Res F) w elevation points,
    map ev_inv (performed env sub (ProfileCurvatureScript.myanalysis elevation) w)
    = [r_slope_aspect elevation]
    /\ map ev_inv (performed env sub (FlowTraceScript.get_coordinates float points) w)
       = [v_out_ascii points]
    /\ map ev_inv (performed env sub (FlowTraceScript.myanalysis float elevation points) w)
       = v_out_ascii points ::
         match fst (exec env sub (FlowTraceScript.get_coordinates float points) w) with
         | inr (c :: cs) => [r_drain elevation (c :: cs)]
         | _ => []
         end.
Proof.
  intros F env sub float w elevation points. split; [|split].
  - unfold performed. rewrite exec_curvature. simpl.
    rewrite invoke_log, skipn_length_app. reflexivity.
  - rewrite performed_get_coordinates. reflexivity.
  - unfold performed. rewrite exec_myanalysis, exec_get_coordinates.
    destruct (bindR (respond env (log w) (v_out_ascii points)) _) as [e|[|c cs]];
      cbv beta iota; simpl snd; simpl fst.
    + rewrite invoke_log, skipn_length_app. reflexivity.
    + rewrite invoke_log, skipn_length_app. reflexivity.
    + rewrite !invoke_log, <- app_assoc, skipn_length_app. reflexivity.
Qed.

(** C4, as stated, fails.  get_coordinates has a contract of its own: in
    every environment its result is the same function of the text that
    v.out.ascii printed, and that function takes different values on
    different texts. *)
Lemma get_coordinates_has_contract :
  has_own_contract (FlowTraceScript.get_coordinates decimal_literal) v_out_ascii.
Proof.
  exists (fun text => FlowTraceScript.coordinate_pairs decimal_literal (splitlines text)).
  split.
  - intros env sub w a out Hr. rewrite exec_get_coordinates, Hr. reflexivity.
  - exists "1,2", "", [[1%Q; 2%Q]], []. split; [|split].
    + vm_compute. reflexivity.
    + vm_compute. reflexivity.
    + discriminate.
Qed.

(** C4, amended.  The one result computed by code of the repository is
    that of get_coordinates: the text v.out.ascii printed, split into
    lines, each line split at the commas, the first two fields converted
    by [float] (an exception of the engine or of [float] is passed on).
    The two myanalysis functions compute nothing: the first returns None
    when r.slope.aspect completes; the second returns None when
    get_coordinates returns the empty list or when r.drain completes. *)
Theorem authored_results :
  forall F (env : Env F) sub (float : string -> Res F) w elevation points,
    fst (exec env sub (FlowTraceScript.get_coordinates float points) w)
    = bindR (respond env (log w) (v_out_ascii points))
            (fun out => comprehension
                          (fun point => comprehension float (firstn 2 (split comma point)))
                          (splitlines (stdout out)))
    /\ fst (exec env sub (ProfileCurvatureScript.myanalysis elevation) w)
       = bindR (respond env (log w) (r_slope_aspect elevation)) (fun _ => inr tt)
    /\ fst (exec env sub (FlowTraceScript.myanalysis float elevation points) w)
       = match exec env sub (FlowTraceScript.get_coordinates float points) w with
         | (inl e, _) => inl e
         | (inr [], _) => inr tt
         | (inr (c :: cs), w') =>
             bindR (respond env (log w') (r_drain elevation (c :: cs))) (fun _ => inr tt)
         end.
Proof.
  intros F env sub float w elevation points. split; [|split].
  - rewrite exec_get_coordinates. reflexivity.
  - rewrite exec_curvature. reflexivity.
  - rewrite exec_myanalysis.
    destruct (exec env sub (FlowTraceScript.get_coordinates float points) w) as [[e|[|c cs]] w'];
      reflexivity.
Qed.

(* ------------------------------------------------------------------ *)
(** ** Exceptions *)
(* ------------------------------------------------------------------ *)

Section Propagation.
Context {F : Type} (env : Env F).

(** In a program without a handler that starts no file, the first
    invocation that raises ends the run with its exception, and is the
    last one performed. *)
Lemma plain_raise : forall sub A (p : Prog F A),
  Nodes any_call any_op False p ->
  forall w, exists evs,
    log (snd (exec env sub p w)) = (log w ++ evs)%list
    /\ forall ev e,
         In ev evs -> ev_result ev = inl e -> raises (api (ev_inv ev)) = true ->
         fst (exec env sub p w) = inl e /\ exists pre, evs = (pre ++ [ev])%list.
Proof.
  intros sub A p Hn.
  induction Hn as [A a|A e0|A i k Hi Hk IH|A op k Hq Hk IH|A k Hk IH|A file k Hr Hk IH];
    intros w; simpl.
  - exists []. rewrite app_nil_r. split; [reflexivity|]. intros ev e [].
  - exists []. rewrite app_nil_r. split; [reflexivity|]. intros ev e [].
  - pose proof (invoke_log env i w) as L. pose proof (invoke_result env i w) as Hr.
    destruct (invoke env i w) as [r w']. simpl in L, Hr. subst r.
    set (ev0 := mkEvent i (mask w) (respond env (log w) i)) in *.
    assert (Hcont : forall out,
               respond env (log w) i = inr out \/ raises (api i) = false ->
               exists evs,
                 log (snd (exec env sub (k out) w')) = (log w ++ evs)%list
                 /\ forall ev e,
                      In ev evs -> ev_result ev = inl e -> raises (api (ev_inv ev)) = true ->
                      fst (exec env sub (k out) w') = inl e
                      /\ exists pre, evs = (pre ++ [ev])%list).
    { intros out Hout. destruct (IH out w') as [evs [L' H']].
      exists (ev0 :: evs). split.
      - rewrite L', L, <- app_assoc. reflexivity.
      - intros ev e [Heq|Hin] Hf Hraise.
        + subst ev. simpl in Hf, Hraise. destruct Hout as [Hout|Hout]; congruence.
        + destruct (H' ev e Hin Hf Hraise) as [Hres [pre Hpre]].
          split; [exact Hres|]. exists (ev0 :: pre). rewrite Hpre. reflexivity. }
    destruct (respond env (log w) i) as [e0|out] eqn:E.
    + destruct (raises (api i)) eqn:Ra.
      * exists [ev0]. split; [exact L|].
        intros ev e [Heq|[]] Hf _. subst ev. simpl in Hf.
        split; [simpl; congruence|]. exists []. reflexivity.
      * apply Hcont. right. reflexivity.
    + apply Hcont. left. reflexivity.
  - destruct (interp_step env op w) as [e0|w'] eqn:E.
    + exists []. rewrite app_nil_r. split; [reflexivity|]. intros ev e [].
    + destruct (interp_step_session env _ _ _ E) as (L & _).
      destruct (IH w') as [evs [L' H']]. exists evs. rewrite L', L. auto.
  - destruct (df w).
    + apply IH.
    + exists []. rewrite app_nil_r. split; [reflexivity|]. intros ev e [].
  - contradiction.
Qed.

Lemma plain_propagates : forall sub A (p : Prog F A),
  Nodes any_call any_op False p -> propagates_in env sub p.
Proof.
  intros sub A p Hn w ev e Hin Hf Hr.
  destruct (plain_raise sub A p Hn w) as [evs [L H]].
  assert (Hp : performed env sub p w = evs)
    by (unfold performed; rewrite L; apply skipn_length_app).
  rewrite Hp in *. exact (H ev e Hin Hf Hr).
Qed.

End Propagation.

(** C2.  Nothing stands between a failing call and the top level.  For
    every cell of the two notebooks, for get_coordinates and the two
    myanalysis on all arguments, and for the two scripts run as programs,
    in every environment and from every state: when an invocation made
    through subprocess.check_output or a function of the wrapper library
    raises, the run ends with that same exception, and the failed
    invocation is the last one performed (nothing is retried, nothing runs
    after it).  No [try] statement occurs in a cell, a function or a script.
    The language of the cells has [try]; the statement is about the code of
    the repository, which does not use it. *)
Theorem exceptions_propagate :
  forall F (env : Env F),
    Forall (propagates_in env (run_file env)) (GettingStarted.cells ++ Checkpoint.cells)
    /\ (forall sub float elevation points,
           propagates_in env sub (FlowTraceScript.get_coordinates float points)
           /\ propagates_in env sub (FlowTraceScript.myanalysis float elevation points)
           /\ propagates_in env sub (ProfileCurvatureScript.myanalysis elevation))
    /\ (forall float s, propagates_in env no_sub (script_main float s))
    /\ Forall (fun c : Prog F unit => no_handler c) (GettingStarted.cells ++ Checkpoint.cells)
    /\ (forall (float : string -> Res F) elevation points s,
           no_handler (FlowTraceScript.get_coordinates float points)
           /\ no_handler (FlowTraceScript.myanalysis float elevation points)
           /\ no_handler (@ProfileCurvatureScript.myanalysis F elevation)
           /\ no_handler (script_main float s)).
Proof.
  intros F env. split; [|split; [|split; [|split]]].
  - unfold GettingStarted.cells, Checkpoint.cells, Checkpoint.cells_before_mask,
      Checkpoint.cells_under_mask, Checkpoint.cells_after_mask.
    simpl app. repeat (constructor; [apply plain_propagates; nodes|]). constructor.
  - intros sub float elevation points.
    split; [|split]; apply plain_propagates; nodes.
  - intros float s. apply plain_propagates. destruct s; nodes.
  - unfold GettingStarted.cells, Checkpoint.cells, Checkpoint.cells_before_mask,
      Checkpoint.cells_under_mask, Checkpoint.cells_after_mask.
    simpl app. repeat (constructor; [unfold no_handler; nodes|]). constructor.
  - intros float elevation points s. unfold no_handler.
    split; [|split; [|split]]; try (destruct s); nodes.
Qed.

Lemma exceptions_propagate_witness :
  fst (run_cell (failing_env "r.watershed") Checkpoint.cell_watershed
         (mkWorld [] ["gs"] None [] None [] []))
  = inl (CalledModuleError "r.watershed")
  /\ exists pre,
       performed (failing_env "r.watershed") (run_file (failing_env "r.watershed"))
         Checkpoint.cell_watershed (mkWorld [] ["gs"] None [] None [] [])
       = (pre ++ [mkEvent (mkInv 614 RunCommand "r.watershed" []
                             [("elevation", AStr "elevation");
                              ("accumulation", AStr "accumulation");
                              ("drainage", AStr "drainage")])
                          None (inl (CalledModuleError "r.watershed"))])%list.
Proof.
  pose proof (proj1 (exceptions_propagate Q (failing_env "r.watershed"))) as H.
  rewrite Forall_forall in H.
  apply (H Checkpoint.cell_watershed).
  - apply in_or_app. right. unfold Checkpoint.cells, Checkpoint.cells_before_mask.
    do 24 right. left. reflexivity.
  - left. reflexivity.
  - reflexivity.
  - reflexivity.
Defined.

(** The statement above is not true of every program of the language: a
    cell that wrapped the call in a handler would go on after the failure. *)
Example a_handler_recovers :
  ~ propagates_in (failing_env "r.watershed") no_sub recovering_watershed.
Proof.
  intros H.
  destruct (H (mkWorld [] ["gs"; "gj"] None [] None [] [])
              (mkEvent (mkInv 614 RunCommand "r.watershed" []
                          [("elevation", AStr "elevation");
                           ("accumulation", AStr "accumulation");
                           ("drainage", AStr "drainage")])
                       None (inl (CalledModuleError "r.watershed")))
              (CalledModuleError "r.watershed")
              (or_introl eq_refl) eq_refl eq_refl) as [Hr _].
  vm_compute in Hr. discriminate Hr.
Qed.

(* ------------------------------------------------------------------ *)
(** ** The state the cells change *)
(* ------------------------------------------------------------------ *)

Section State.
Context {F : Type} (env : Env F).



End State.


(* ------------------------------------------------------------------ *)
(** ** Dataset names along a run *)
(* ------------------------------------------------------------------ *)

Section Names.
Context {F : Type} (env : Env F).
Variable P : Invocation F -> Prop.

(** When every invocation of the cells satisfies [P], so does every
    invocation in the log of a run. *)
Lemma log_cell : forall c,
  Nodes P any_op False c ->
  forall w, Forall (fun ev => P (ev_inv ev)) (log w) ->
            Forall (fun ev => P (ev_inv ev)) (log (snd (run_cell env c w))).
Proof.
  intros c Hc. unfold run_cell.
  apply (exec_preserves env (run_file env)
           (fun w => Forall (fun ev => P (ev_inv ev)) (log w)) P any_op False).
  - intros i w Hi Hw. rewrite invoke_log. apply Forall_app. split; [exact Hw|].
    constructor; [exact Hi|constructor].
  - intros op w w' _ Hw E. destruct (interp_step_session env _ _ _ E) as (L & _).
    rewrite L. exact Hw.
  - intros file w [].
  - exact Hc.
Qed.

Lemma log_notebook : forall kg cells path,
  Forall (Nodes P any_op False) cells ->
  Forall (fun ev => P (ev_inv ev)) (log (snd (run_notebook env kg cells (fresh path)))).
Proof.
  intros kg cells path H.
  apply (run_notebook_preserves env (fun w => Forall (fun ev => P (ev_inv ev)) (log w))).
  - eapply Forall_impl; [|exact H]. intros c Hc. apply log_cell. exact Hc.
  - constructor.
Qed.

End Names.

Section Fixed.
Context {F : Type} (env : Env F).




End Fixed.







(** The first part of the statement is not true of every cell one could
    write: a cell that asked the engine for the rasters and chose its input
    by the answer would not pass fixed names. *)
Example a_choosing_cell_is_not_fixed : ~ names_fixed choosing_cell.
Proof.
  intros [plan H].
  pose proof (H (sample_env two_points) (mkWorld [] ["gs"] None [] None [] [])) as H1.
  pose proof (H (mkEnv (fun _ _ => inr (mkOut "" ["elevation"] None)) sample_provides []
                   decimal_literal sample_nan)
                (mkWorld [] ["gs"] None [] None [] [])) as H2.
  vm_compute in H1. vm_compute in H2.
  destruct plan as [|a [|b plan]].
  - destruct H1.
  - destruct H1 as [_ []].
  - destruct H1 as [_ [H1 _]]. destruct H2 as [_ [H2 _]].
    rewrite <- H1 in H2. discriminate H2.
Qed.

(** C1 (checkpoint notebook).  Run in an environment where every
    invocation completes, twelve invocations of the checkpoint notebook
    read a dataset that no earlier invocation of the run wrote; the first
    is r.path on line 638 with start_points=lagoon_points.  The eight names
    concerned are written by no invocation of that notebook in any
    environment: six are written nowhere, and the two the scripts would
    write (pcurvature, drain_vector) are not written because no cell runs
    the scripts.  In 01_Getting_Started.ipynb, run the same way, every
    input was written before. *)
Theorem checkpoint_inputs_missing :
  missing [] (log (snd (run_notebook (sample_env two_points) true Checkpoint.cells
                          (fresh [python_dir]))))
  = [ (638, "r.path", "start_points", "lagoon_points");
      (659, "d.shade", "shade", "relief");
      (726, "d.rast", "map", "relief");
      (728, "TimeSeriesMap.add_raster_series", "", "inundation");
      (760, "v.extract", "input", "streams");
      (772, "d.rast", "map", "relief");
      (773, "d.vect", "map", "streams");
      (830, "r.water.outlet", "input", "direction");
      (832, "d.shade", "shade", "relief");
      (864, "g.region", "zoom", "basin_13");
      (1053, "d.rast", "map", "pcurvature");
      (1118, "d.vect", "map", "drain_vector") ]%nat
  /\ (forall F (env : Env F) keep_going path,
         Forall (fun ev => writes_none_of never_written (ev_inv ev) = true)
                (log (snd (run_notebook env keep_going Checkpoint.cells (fresh path)))))
  /\ missing [] (log (snd (run_notebook (sample_env two_points) true GettingStarted.cells
                             (fresh [python_dir]))))
     = [].
Proof.
  split; [vm_compute; reflexivity|split; [|vm_compute; reflexivity]].
  intros F env keep_going path.
  apply (log_notebook env (fun i => writes_none_of never_written i = true)).
  unfold Checkpoint.cells, Checkpoint.cells_before_mask, Checkpoint.cells_under_mask,
    Checkpoint.cells_after_mask. simpl app.
  repeat (constructor; [nodes|]). constructor.
Qed.

(** The mask in the run of the checkpoint notebook where every invocation
    completes: the invocations on lines 904 to 968 run under the mask of
    basin_15, all others without one. *)
Example checkpoint_masked_lines :
  map (fun ev => line (ev_inv ev))
      (filter (fun ev => match ev_mask ev with Some _ => true | None => false end)
              (log (snd (run_notebook (sample_env two_points) true Checkpoint.cells
                           (fresh [python_dir])))))
  = [904; 905; 926; 933; 934; 945; 946; 947; 968]%nat.
Proof. vm_compute. reflexivity. Qed.


(* ------------------------------------------------------------------ *)
(** ** Further properties of get_coordinates and myanalysis *)
(* ------------------------------------------------------------------ *)

Lemma comprehension_length : forall A B (f : A -> Res B) l bs,
  comprehension f l = inr bs -> List.length bs = List.length l.
Proof.
  intros A B f l. induction l as [|a l IH]; intros bs H; simpl in H.
  - inversion H. reflexivity.
  - destruct (f a) as [e|b]; simpl in H; [discriminate|].
    destruct (comprehension f l) as [e|bs']; simpl in H; [discriminate|].
    inversion H. simpl. rewrite (IH bs' eq_refl). reflexivity.
Qed.

Lemma comprehension_each : forall A B (f : A -> Res B) l bs,
  comprehension f l = inr bs -> Forall2 (fun a b => f a = inr b) l bs.
Proof.
  intros A B f l. induction l as [|a l IH]; intros bs H; simpl in H.
  - inversion H. constructor.
  - destruct (f a) as [e|b] eqn:E; simpl in H; [discriminate|].
    destruct (comprehension f l) as [e|bs']; simpl in H; [discriminate|].
    inversion H. constructor; [exact E|apply IH; reflexivity].
Qed.

Lemma comprehension_accepts : forall A B (f : A -> Res B) l,
  Forall (fun a => exists b, f a = inr b) l -> exists bs, comprehension f l = inr bs.
Proof.
  intros A B f l H. induction H as [|a l [b Hb] _ [bs Hbs]]; simpl.
  - exists []. reflexivity.
  - exists (b :: bs). rewrite Hb, Hbs. reflexivity.
Qed.

Lemma comprehension_first_error : forall A B (f : A -> Res B) pre a post e,
  Forall (fun a => exists b, f a = inr b) pre ->
  f a = inl e ->
  comprehension f (pre ++ a :: post) = inl e.
Proof.
  intros A B f pre a post e H Ha. induction H as [|a0 l [b Hb] _ IH]; simpl.
  - rewrite Ha. reflexivity.
  - rewrite Hb. simpl. rewrite IH. reflexivity.
Qed.

Lemma comprehension_some_error : forall A B (f : A -> Res B) l a e,
  In a l -> f a = inl e -> exists e', comprehension f l = inl e'.
Proof.
  intros A B f l a e. induction l as [|a0 l IH]; intros Hin Ha; simpl.
  - contradiction.
  - destruct (f a0) as [e0|b] eqn:E0; simpl.
    + exists e0. reflexivity.
    + destruct Hin as [Heq|Hin].
      * subst a0. congruence.
      * destruct (IH Hin Ha) as [e' He']. rewrite He'. exists e'. reflexivity.
Qed.

Lemma split_from_length : forall sep s field,
  List.length (split_from sep field s) = S (count_char sep s).
Proof.
  intros sep s. induction s as [|c s IH]; intros field; simpl.
  - reflexivity.
  - destruct (Ascii.eqb c sep); simpl; rewrite IH; reflexivity.
Qed.

Lemma accepted_pair : forall F (float : string -> Res F) ln,
  accepted float ln -> exists c, comprehension float (firstn 2 (split comma ln)) = inr c.
Proof.
  intros F float ln H. apply comprehension_accepts. exact H.
Qed.

Lemma rejected_pair : forall F (float : string -> Res F) ln e,
  rejected float ln e -> comprehension float (firstn 2 (split comma ln)) = inl e.
Proof.
  intros F float ln e (f0 & rest & Hs & [H0|(x & f1 & rest' & H0 & Hr & H1)]).
  - rewrite Hs. simpl. rewrite H0. reflexivity.
  - rewrite Hs, Hr. simpl. rewrite H0. simpl. rewrite H1. reflexivity.
Qed.

(** What myanalysis does when get_coordinates raises: it raises the same
    exception after the one invocation of v.out.ascii. *)
Lemma myanalysis_after_error :
  forall F (env : Env F) sub (float : string -> Res F) w elevation points out e,
    respond env (log w) (v_out_ascii points) = inr out ->
    FlowTraceScript.coordinate_pairs float (splitlines (stdout out)) = inl e ->
    fst (exec env sub (FlowTraceScript.get_coordinates float points) w) = inl e
    /\ fst (exec env sub (FlowTraceScript.myanalysis float elevation points) w) = inl e
    /\ performed env sub (FlowTraceScript.myanalysis float elevation points) w
       = [mkEvent (v_out_ascii points) (mask w) (inr out)].
Proof.
  intros F env sub float w elevation points out e Hr Hc.
  assert (Hg : exec env sub (FlowTraceScript.get_coordinates float points) w
               = (inl e, snd (invoke env (v_out_ascii points) w))).
  { rewrite exec_get_coordinates, Hr. simpl. rewrite Hc. reflexivity. }
  repeat split.
  - rewrite Hg. reflexivity.
  - rewrite exec_myanalysis, Hg. reflexivity.
  - unfold performed. rewrite exec_myanalysis, Hg. simpl.
    rewrite invoke_log, Hr. apply skipn_length_app.
Qed.

(** X1.  get_coordinates reads the lines in order and the two fields of a
    line in order, and stops at the first field [float] rejects: when the
    lines before a line are accepted and that line is rejected with [e],
    get_coordinates raises [e], and so does myanalysis, which has then
    performed v.out.ascii and nothing else. *)
Theorem get_coordinates_first_error :
  forall F (env : Env F) sub (float : string -> Res F) w elevation points out pre ln post e,
    respond env (log w) (v_out_ascii points) = inr out ->
    splitlines (stdout out) = (pre ++ ln :: post)%list ->
    Forall (accepted float) pre ->
    rejected float ln e ->
    fst (exec env sub (FlowTraceScript.get_coordinates float points) w) = inl e
    /\ fst (exec env sub (FlowTraceScript.myanalysis float elevation points) w) = inl e
    /\ performed env sub (FlowTraceScript.myanalysis float elevation points) w
       = [mkEvent (v_out_ascii points) (mask w) (inr out)].
Proof.
  intros F env sub float w elevation points out pre ln post e Hr Hl Hpre Hrej.
  apply myanalysis_after_error; [exact Hr|].
  unfold FlowTraceScript.coordinate_pairs. rewrite Hl.
  apply comprehension_first_error.
  - eapply Forall_impl; [|exact Hpre]. intros l Hl'. apply accepted_pair. exact Hl'.
  - apply rejected_pair. exact Hrej.
Qed.

Lemma get_coordinates_first_error_witness :
  fst (exec (sample_env ("1,2" ++ nl ++ "3,x" ++ nl ++ "y,4")) no_sub
         (FlowTraceScript.myanalysis decimal_literal "elevation" "lagoon_points") (fresh []))
  = inl (ValueError "x").
Proof.
  refine (proj1 (proj2 (get_coordinates_first_error Q
            (sample_env ("1,2" ++ nl ++ "3,x" ++ nl ++ "y,4")) no_sub decimal_literal (fresh [])
            "elevation" "lagoon_points" (mkOut ("1,2" ++ nl ++ "3,x" ++ nl ++ "y,4") [] None)
            ["1,2"] "3,x" ["y,4"] (ValueError "x") eq_refl eq_refl _ _))).
  - constructor; [|constructor]. unfold accepted. simpl.
    constructor; [eexists; vm_compute; reflexivity|].
    constructor; [eexists; vm_compute; reflexivity|constructor].
  - exists "3", ["x"]. split; [reflexivity|]. right.
    exists 3%Q, "x", []. repeat split; vm_compute; reflexivity.
Defined.

(** X2.  Whenever get_coordinates returns, it returns one element per
    line, and the element of a line holds two coordinates if the line has
    a comma and one if it has none: a line without a comma does not make
    get_coordinates raise, it yields a one-coordinate element. *)
Theorem get_coordinates_shape :
  forall F (env : Env F) sub (float : string -> Res F) w points out coords,
    respond env (log w) (v_out_ascii points) = inr out ->
    fst (exec env sub (FlowTraceScript.get_coordinates float points) w) = inr coords ->
    Forall2 (fun ln c => List.length c = Nat.min 2 (S (count_char comma ln)))
            (splitlines (stdout out)) coords.
Proof.
  intros F env sub float w points out coords Hr Hc.
  rewrite exec_get_coordinates, Hr in Hc. simpl in Hc.
  unfold FlowTraceScript.coordinate_pairs in Hc.
  apply comprehension_each in Hc.
  eapply Forall2_impl; [|exact Hc]. intros ln c H.
  apply comprehension_length in H. rewrite H, length_firstn.
  unfold split. rewrite split_from_length. reflexivity.
Qed.

Lemma get_coordinates_shape_witness :
  Forall2 (fun ln c => List.length c = Nat.min 2 (S (count_char comma ln)))
          (splitlines ("7" ++ nl ++ "1,2,3")) [[7%Q]; [1%Q; 2%Q]].
Proof.
  exact (get_coordinates_shape Q (sample_env ("7" ++ nl ++ "1,2,3")) no_sub decimal_literal
           (fresh []) "lagoon_points" (mkOut ("7" ++ nl ++ "1,2,3") [] None)
           [[7%Q]; [1%Q; 2%Q]] eq_refl eq_refl).
Defined.

Lemma last_char_cons : forall c d s, last_char (String c (String d s)) = last_char (String d s).
Proof. reflexivity. Qed.

Lemma ends_in_text_cons : forall c d s,
  ends_in_text (String c (String d s)) = ends_in_text (String d s).
Proof. reflexivity. Qed.

Lemma snoc_not_empty : forall s c, snoc s c <> "".
Proof. intros s c. destruct s; discriminate. Qed.

(** A line boundary after text that is not closed by one adds no line. *)
Lemma splitlines_from_final_newline : forall n s line,
  (String.length s <= n)%nat ->
  (match s with EmptyString => line <> "" | _ => ends_in_text s = true end) ->
  splitlines_from line (s ++ nl) = splitlines_from line s.
Proof.
  induction n as [|n IH]; intros s line Hn Hs.
  - destruct s; [|simpl in Hn; inversion Hn].
    simpl. destruct line; [contradiction|reflexivity].
  - destruct s as [|c rest].
    + simpl. destruct line; [contradiction|reflexivity].
    + simpl in Hn. apply le_S_n in Hn.
      change (String c rest ++ nl) with (String c (rest ++ nl)).
      simpl splitlines_from.
      destruct (is_linebreak c) eqn:Ec.
      * destruct rest as [|d rest'].
        { unfold ends_in_text in Hs. simpl in Hs. rewrite Ec in Hs. discriminate. }
        rewrite ends_in_text_cons in Hs.
        change (String d rest' ++ nl) with (String d (rest' ++ nl)). cbv beta iota.
        destruct ((code c =? 13)%nat && (code d =? 10)%nat) eqn:Ecr.
        { f_equal. apply IH.
          - simpl in Hn. apply Nat.le_trans with (String.length rest'); [apply le_n|].
            apply Nat.le_trans with (S (String.length rest')); [apply Nat.le_succ_diag_r|exact Hn].
          - destruct rest' as [|d' rest''].
            + apply andb_prop in Ecr. destruct Ecr as [_ Ed].
              unfold ends_in_text in Hs. simpl in Hs.
              apply Nat.eqb_eq in Ed. unfold is_linebreak in Hs. rewrite Ed in Hs.
              simpl in Hs. discriminate.
            + rewrite ends_in_text_cons in Hs. exact Hs. }
        { f_equal. apply (IH (String d rest') ""); [exact Hn|exact Hs]. }
      * apply IH; [exact Hn|].
        destruct rest as [|d rest'].
        { apply snoc_not_empty. }
        { rewrite ends_in_text_cons in Hs. exact Hs. }
Qed.

(** X3.  A newline that ends the output of v.out.ascii adds no element:
    on a text that is not empty and does not end in a line boundary, and
    on that text followed by a newline, get_coordinates gives the same
    result. *)
Theorem get_coordinates_final_newline :
  forall F (env env' : Env F) sub sub' (float : string -> Res F) w w' points out out',
    respond env (log w) (v_out_ascii points) = inr out ->
    respond env' (log w') (v_out_ascii points) = inr out' ->
    ends_in_text (stdout out) = true ->
    stdout out' = stdout out ++ nl ->
    fst (exec env' sub' (FlowTraceScript.get_coordinates float points) w')
    = fst (exec env sub (FlowTraceScript.get_coordinates float points) w).
Proof.
  intros F env env' sub sub' float w w' points out out' Hr Hr' He Hs.
  rewrite !exec_get_coordinates, Hr, Hr'. simpl. rewrite Hs. unfold splitlines.
  rewrite (splitlines_from_final_newline (String.length (stdout out)) (stdout out) "").
  - reflexivity.
  - apply le_n.
  - destruct (stdout out); [discriminate He|exact He].
Qed.

Lemma get_coordinates_final_newline_witness :
  fst (exec (sample_env ("1,2" ++ nl ++ "3,4" ++ nl)) no_sub
         (FlowTraceScript.get_coordinates decimal_literal "lagoon_points") (fresh []))
  = fst (exec (sample_env ("1,2" ++ nl ++ "3,4")) no_sub
           (FlowTraceScript.get_coordinates decimal_literal "lagoon_points") (fresh [])).
Proof.
  exact (get_coordinates_final_newline Q (sample_env ("1,2" ++ nl ++ "3,4"))
           (sample_env ("1,2" ++ nl ++ "3,4" ++ nl)) no_sub no_sub decimal_literal
           (fresh []) (fresh []) "lagoon_points"
           (mkOut ("1,2" ++ nl ++ "3,4") [] None) (mkOut ("1,2" ++ nl ++ "3,4" ++ nl) [] None)
           eq_refl eq_refl eq_refl eq_refl).
Defined.

(** X4.  An empty line in the output of v.out.ascii makes get_coordinates
    raise when [float] rejects the empty string (as Python's does):
    myanalysis then raises too and performs no r.drain. *)
Theorem get_coordinates_blank_line :
  forall F (env : Env F) sub (float : string -> Res F) w elevation points out e0,
    respond env (log w) (v_out_ascii points) = inr out ->
    In "" (splitlines (stdout out)) ->
    float "" = inl e0 ->
    exists e,
      fst (exec env sub (FlowTraceScript.get_coordinates float points) w) = inl e
      /\ fst (exec env sub (FlowTraceScript.myanalysis float elevation points) w) = inl e
      /\ performed env sub (FlowTraceScript.myanalysis float elevation points) w
         = [mkEvent (v_out_ascii points) (mask w) (inr out)].
Proof.
  intros F env sub float w elevation points out e0 Hr Hin H0.
  destruct (comprehension_some_error _ _
              (fun point => comprehension float (firstn 2 (split comma point)))
              (splitlines (stdout out)) "" e0 Hin) as [e He].
  - simpl. rewrite H0. reflexivity.
  - exists e. apply myanalysis_after_error; assumption.
Qed.

Lemma get_coordinates_blank_line_witness :
  exists e,
    fst (exec (sample_env ("1,2" ++ nl ++ nl ++ "3,4")) no_sub
           (FlowTraceScript.get_coordinates decimal_literal "lagoon_points") (fresh []))
    = inl e.
Proof.
  destruct (get_coordinates_blank_line Q (sample_env ("1,2" ++ nl ++ nl ++ "3,4")) no_sub
              decimal_literal (fresh []) "elevation" "lagoon_points"
              (mkOut ("1,2" ++ nl ++ nl ++ "3,4") [] None) (ValueError "")
              eq_refl (or_intror (or_introl eq_refl)) eq_refl) as [e [He _]].
  exists e. exact He.
Defined.

Lemma invoke_same_state : forall F (env : Env F) (i : Invocation F) w,
  negb (tool i =? "r.mask") && negb (tool i =? "g.region") = true ->
  same_state w (snd (invoke env i w)).
Proof.
  intros F env i w H. apply andb_prop in H. destruct H as [Hm Hg].
  unfold same_state, invoke, mask_step, region_step.
  destruct (tool i =? "r.mask"); [discriminate|].
  destruct (tool i =? "g.region"); [discriminate|].
  destruct (respond env (log w) i); simpl; repeat split.
Qed.

Lemma same_state_refl : forall F (w : World F), same_state w w.
Proof. intros F w. unfold same_state. repeat split. Qed.

Lemma same_state_trans : forall F (w1 w2 w3 : World F),
  same_state w1 w2 -> same_state w2 w3 -> same_state w1 w3.
Proof.
  unfold same_state. intros F w1 w2 w3 (A1 & B1 & C1 & D1 & E1 & G1) (A2 & B2 & C2 & D2 & E2 & G2).
  repeat split; congruence.
Qed.

(** X5.  The functions of the scripts act through their invocations only:
    in every environment, and whether they return or raise, get_coordinates
    and the two myanalysis leave sys.path, the bound names, df, the files,
    the mask and the region as they find them. *)
Theorem functions_leave_state :
  forall F (env : Env F) sub (float : string -> Res F) w elevation points,
    same_state w (snd (exec env sub (FlowTraceScript.get_coordinates float points) w))
    /\ same_state w (snd (exec env sub (FlowTraceScript.myanalysis float elevation points) w))
    /\ same_state w (snd (exec env sub (ProfileCurvatureScript.myanalysis elevation) w)).
Proof.
  intros F env sub float w elevation points.
  assert (Hg : same_state w (snd (exec env sub (FlowTraceScript.get_coordinates float points) w))).
  { rewrite exec_get_coordinates. simpl. apply invoke_same_state. reflexivity. }
  split; [exact Hg|split].
  - rewrite exec_myanalysis.
    destruct (exec env sub (FlowTraceScript.get_coordinates float points) w) as [[e|[|c cs]] w'];
      simpl in Hg |- *; try exact Hg.
    eapply same_state_trans; [exact Hg|]. apply invoke_same_state. reflexivity.
  - rewrite exec_curvature. simpl. apply invoke_same_state. reflexivity.
Qed.

(* ------------------------------------------------------------------ *)
(** ** Further properties of the cells around the mask *)
(* ------------------------------------------------------------------ *)

(** X6.  What the cell of line 884 leaves: when it completes, the mask
    is basin_15; when it raises (gs unknown, or r.mask failed), the mask is
    what it was.  The region is untouched either way. *)
Theorem cell_mask_outcome :
  forall F (env : Env F) w,
    match fst (run_cell env Checkpoint.cell_mask w) with
    | inr _ => mask (snd (run_cell env Checkpoint.cell_mask w)) = Some "basin_15"
    | inl _ => mask (snd (run_cell env Checkpoint.cell_mask w)) = mask w
    end
    /\ region (snd (run_cell env Checkpoint.cell_mask w)) = region w.
Proof.
  intros F env w. unfold run_cell, Checkpoint.cell_mask, gs_run_command, need. cbn.
  destruct (mem "gs" (bound w)); cbn; [|split; reflexivity].
  unfold invoke. destruct (respond env (log w) _); cbn; split; reflexivity.
Qed.

(** X7.  What the cell of lines 967-970 leaves: when it completes, no
    mask is set and the newest region setting is the one of line 970; when
    it raises, the region is what it was, and the mask is either what it
    was or removed (r.mask -r completed and g.region then failed). *)
Theorem cell_unmask_outcome :
  forall F (env : Env F) w,
    match fst (run_cell env Checkpoint.cell_unmask w) with
    | inr _ =>
        mask (snd (run_cell env Checkpoint.cell_unmask w)) = None
        /\ region (snd (run_cell env Checkpoint.cell_unmask w)) = region_reset :: region w
    | inl _ =>
        region (snd (run_cell env Checkpoint.cell_unmask w)) = region w
        /\ (mask (snd (run_cell env Checkpoint.cell_unmask w)) = mask w
            \/ mask (snd (run_cell env Checkpoint.cell_unmask w)) = None)
    end.
Proof.
  intros F env w.
  destruct (run_cell env Checkpoint.cell_unmask w) as [r w'] eqn:E. simpl fst. simpl snd.
  unfold run_cell, Checkpoint.cell_unmask, gs_run_command, need in E. cbn in E.
  destruct (mem "gs" (bound w)) eqn:B; cbn in E;
    [|inversion E; subst; split; [reflexivity|left; reflexivity]].
  unfold invoke in E. cbn in E.
  repeat match type of E with
         | context [match respond env ?h ?i with _ => _ end] =>
             destruct (respond env h i); cbn in E; try rewrite B in E; cbn in E
         end;
    inversion E; subst; cbn.
  - split; [reflexivity|left; reflexivity].
  - split; [reflexivity|right; reflexivity].
  - split; reflexivity.
Qed.

Lemma session_neutral_cell : forall F (env : Env F) c,
  Nodes session_neutral any_op False c ->
  forall w, mask (snd (run_cell env c w)) = mask w
            /\ region (snd (run_cell env c w)) = region w.
Proof.
  intros F env c Hc w. unfold run_cell.
  apply (exec_preserves env (run_file env)
           (fun w' => mask w' = mask w /\ region w' = region w)
           session_neutral any_op False).
  - intros i w0 Hi [Hm Hr].
    destruct (invoke_same_state F env i w0 Hi) as (_ & _ & _ & _ & M & R).
    split; congruence.
  - intros op w0 w' _ [Hm Hr] E.
    destruct (interp_step_session env _ _ _ E) as (_ & M & R). split; congruence.
  - intros file w0 [].
  - exact Hc.
  - split; reflexivity.
Qed.

(** X8.  The cells between the two mask calls (lines 904-947) never touch
    the mask or the region, whether they complete or raise: run one by one
    or together, stepping through or stopping at the first error, they
    leave both as they find them. *)
Theorem cells_under_mask_keep_mask :
  forall F (env : Env F),
    Forall (fun c => forall w, mask (snd (run_cell env c w)) = mask w
                               /\ region (snd (run_cell env c w)) = region w)
           Checkpoint.cells_under_mask
    /\ (forall keep_going w,
           mask (snd (run_notebook env keep_going Checkpoint.cells_under_mask w)) = mask w
           /\ region (snd (run_notebook env keep_going Checkpoint.cells_under_mask w))
              = region w).
Proof.
  intros F env.
  assert (H : Forall (fun c => forall w, mask (snd (run_cell env c w)) = mask w
                                         /\ region (snd (run_cell env c w)) = region w)
                     (@Checkpoint.cells_under_mask F)).
  { unfold Checkpoint.cells_under_mask.
    repeat (constructor; [apply session_neutral_cell; nodes|]). constructor. }
  split; [exact H|].
  intros keep_going w.
  apply (run_notebook_preserves env (fun w' => mask w' = mask w /\ region w' = region w)).
  - eapply Forall_impl; [|exact H]. intros c Hc w0 [Hm Hr].
    destruct (Hc w0) as [M R]. split; congruence.
  - split; reflexivity.
Qed.

(** X9.  No cell cleans up after a failure.  When the simulation cell
    (lines 904-905) raises in a run that stops at the first error, the run
    ends there: the cell that removes the mask is not reached and the mask
    stays as it was. *)
Theorem failed_simulation_leaves_mask :
  forall F (env : Env F) w e,
    fst (run_cell env Checkpoint.cell_sim_water w) = inl e ->
    fst (run_notebook env false
           (Checkpoint.cells_under_mask ++ [Checkpoint.cell_unmask]
            ++ Checkpoint.cells_after_mask) w) = [inl e]
    /\ mask (snd (run_notebook env false
                    (Checkpoint.cells_under_mask ++ [Checkpoint.cell_unmask]
                     ++ Checkpoint.cells_after_mask) w)) = mask w.
Proof.
  intros F env w e H.
  unfold Checkpoint.cells_under_mask. simpl app. simpl run_notebook.
  assert (Hn : Nodes session_neutral any_op False (@Checkpoint.cell_sim_water F)) by nodes.
  destruct (session_neutral_cell F env Checkpoint.cell_sim_water Hn w) as [M _].
  destruct (run_cell env Checkpoint.cell_sim_water w) as [r w']. simpl in H, M. subst r.
  split; [reflexivity|exact M].
Qed.

Lemma failed_simulation_leaves_mask_witness :
  mask (snd (run_notebook (failing_env "r.sim.water") false
               (Checkpoint.cells_under_mask ++ [Checkpoint.cell_unmask]
                ++ Checkpoint.cells_after_mask)
               (mkWorld [] ["gs"; "gj"] None [] (Some "basin_15") [] [])))
  = Some "basin_15".
Proof.
  exact (proj2 (failed_simulation_leaves_mask Q (failing_env "r.sim.water")
                  (mkWorld [] ["gs"; "gj"] None [] (Some "basin_15") [] [])
                  (CalledModuleError "r.sim.water") eq_refl)).
Defined.

(* ------------------------------------------------------------------ *)
(** ** Further properties of single cells *)
(* ------------------------------------------------------------------ *)

Lemma exec_need_bound : forall F (env : Env F) sub n w,
  mem n (bound w) = true -> exec env sub (need n) w = (inr tt, w).
Proof.
  intros F env sub n w H. unfold need. simpl. rewrite H. reflexivity.
Qed.

Lemma exec_df_loc : forall F (env : Env F) sub w t row col,
  df w = Some t -> exec env sub (df_loc row col) w = (loc t row col, w).
Proof.
  intros F env sub w t row col H. unfold df_loc. simpl. rewrite H. apply exec_lift.
Qed.

(** A program that begins with an invocation logs it first. *)
Lemma performed_call : forall F (env : Env F) sub,
  (forall file w, exists evs, extends w (snd (sub file w)) evs) ->
  forall A i (k : Output F -> Prog F A) (f : A -> Prog F unit) w,
  exists rest,
    skipn (List.length (log w)) (log (snd (exec env sub (bind (Call i k) f) w)))
    = mkEvent i (mask w) (respond env (log w) i) :: rest.
Proof.
  intros F env sub Hsub A i k f w.
  destruct (exec_extends env sub Hsub _ (bind (Call i k) f) w) as [evs E].
  destruct E as (L & _). rewrite L, skipn_length_app.
  simpl in L.
  pose proof (invoke_log env i w) as Li.
  destruct (invoke env i w) as [r w1]. simpl in Li.
  assert (Hk : forall out, exists rest,
             log (snd (exec env sub (bind (k out) f) w1))
             = (log w ++ mkEvent i (mask w) (respond env (log w) i) :: rest)%list).
  { intros out. destruct (exec_extends env sub Hsub _ (bind (k out) f) w1) as [e1 (L1 & _)].
    exists e1. rewrite L1, Li, <- app_assoc. reflexivity. }
  destruct r as [e|out].
  - destruct (raises (api i)).
    + simpl in L. rewrite Li in L. apply app_inv_head in L. exists []. symmetry. exact L.
    + destruct (Hk no_output) as [rest Hr]. rewrite Hr in L. apply app_inv_head in L.
      exists rest. symmetry. exact L.
  - destruct (Hk out) as [rest Hr]. rewrite Hr in L. apply app_inv_head in L.
    exists rest. symmetry. exact L.
Qed.

Lemma loc_short : forall F (t : Table F) row col,
  (List.length t <= row)%nat -> exists e, loc t row col = inl e.
Proof.
  intros F t row col H. unfold loc.
  destruct (has_column col t); [|eexists; reflexivity].
  apply nth_error_None in H. rewrite H. eexists; reflexivity.
Qed.

Lemma loc_value : forall F (t : Table F) row col r v,
  nth_error t row = Some r -> lookup col r = Some v -> loc t row col = inr v.
Proof.
  intros F t row col r v Hr Hv. unfold loc.
  assert (Hc : has_column col t = true).
  { unfold has_column. apply existsb_exists. exists r.
    split; [eapply nth_error_In; exact Hr|rewrite Hv; reflexivity]. }
  rewrite Hc, Hr, Hv. reflexivity.
Qed.

(** X10.  The cells of lines 810 and 830 read record 8 of the data frame,
    counted from 0.  On a frame of fewer than nine records both raise and
    perform no invocation: the world is left as it was.  When record 8 has
    an x and a y and gs is known, r.water.outlet is invoked with exactly
    these two values. *)
Theorem outlet_reads_ninth_record :
  forall F (env : Env F) w t,
    df w = Some t ->
    ((List.length t <= 8)%nat ->
     (exists e, run_cell env Checkpoint.cell_point w = (inl e, w))
     /\ (exists e, run_cell env Checkpoint.cell_outlet w = (inl e, w)))
    /\ (forall row x y,
           nth_error t 8 = Some row -> lookup "x" row = Some x -> lookup "y" row = Some y ->
           mem "gs" (bound w) = true ->
           exists rest,
             performed env (run_file env) Checkpoint.cell_outlet w
             = mkEvent (r_water_outlet x y) (mask w) (respond env (log w) (r_water_outlet x y))
               :: rest).
Proof.
  intros F env w t Hdf. split.
  - intros Hlen.
    destruct (loc_short F t 8 "x" Hlen) as [e He].
    split.
    + exists e.
      unfold run_cell, Checkpoint.cell_point.
      rewrite exec_bind, (exec_df_loc F env _ w t 8 "x" Hdf), He. reflexivity.
    + unfold run_cell, Checkpoint.cell_outlet.
      rewrite exec_bind. unfold need at 1. simpl (exec env (run_file env) (Interp _ _) w).
      destruct (mem "gs" (bound w)).
      * exists e. cbv beta iota.
        rewrite exec_bind, (exec_df_loc F env _ w t 8 "x" Hdf), He. reflexivity.
      * exists (NameError "gs"). reflexivity.
  - intros row x y Hrow Hx Hy Hgs.
    assert (Lx : loc t 8 "x" = inr x) by (exact (loc_value F t 8 "x" row x Hrow Hx)).
    assert (Ly : loc t 8 "y" = inr y) by (exact (loc_value F t 8 "y" row y Hrow Hy)).
    unfold performed, Checkpoint.cell_outlet.
    rewrite exec_bind, (exec_need_bound F env _ "gs" w Hgs). cbv beta iota.
    rewrite exec_bind, (exec_df_loc F env _ w t 8 "x" Hdf), Lx. cbv beta iota.
    rewrite exec_bind, (exec_df_loc F env _ w t 8 "y" Hdf), Ly. cbv beta iota.
    apply (performed_call F env (run_file env) (run_file_extends env)).
Qed.

Lemma outlet_reads_ninth_record_witness :
  (exists e, run_cell (sample_env two_points) Checkpoint.cell_outlet
               (mkWorld [] ["gs"] (Some [[("x", 1%Q); ("y", 2%Q)]]) [] None [] [])
             = (inl e, mkWorld [] ["gs"] (Some [[("x", 1%Q); ("y", 2%Q)]]) [] None [] []))
  /\ exists rest,
       performed (sample_env two_points) (run_file (sample_env two_points))
         Checkpoint.cell_outlet (mkWorld [] ["gs"] (Some sample_table) [] None [] [])
       = mkEvent (r_water_outlet (inject_Z 703008) (inject_Z 128008)) None (inr no_output)
         :: rest.
Proof.
  split.
  - exact (proj2 (proj1 (outlet_reads_ninth_record Q (sample_env two_points)
                           (mkWorld [] ["gs"] (Some [[("x", 1%Q); ("y", 2%Q)]]) [] None [] [])
                           [[("x", 1%Q); ("y", 2%Q)]] eq_refl)
                    ltac:(simpl; repeat constructor))).
  - exact (proj2 (outlet_reads_ninth_record Q (sample_env two_points)
                    (mkWorld [] ["gs"] (Some sample_table) [] None [] [])
                    sample_table eq_refl)
             [("cat", inject_Z 9); ("x", inject_Z 703008); ("y", inject_Z 128008)]
             (inject_Z 703008) (inject_Z 128008) eq_refl eq_refl eq_refl eq_refl).
Defined.

(** X11.  No cell runs the scripts.  The two [%%python yourlastname.py]
    cells have no body and end in UsageError before a process is started,
    so in every run of the checkpoint notebook, in every environment,
    stepping through or stopping at the first error, no invocation of the
    script functions is performed: nothing is invoked from lines 1008, 1080
    and 1089, and v.out.ascii and r.drain never run. *)
Theorem scripts_never_run :
  forall F (env : Env F) (keep_going : bool) (path : list string),
    Forall (fun ev => outside_scripts (ev_inv ev))
           (log (snd (run_notebook env keep_going Checkpoint.cells (fresh path)))).
Proof.
  intros F env keep_going path.
  apply (log_notebook env outside_scripts).
  unfold Checkpoint.cells, Checkpoint.cells_before_mask, Checkpoint.cells_under_mask,
    Checkpoint.cells_after_mask. simpl app.
  repeat (constructor; [nodes|]). constructor.
Qed.

Lemma files_cell : forall F (env : Env F) c,
  Nodes any_call no_write False c -> leaves_files env c.
Proof.
  intros F env c Hc w. unfold run_cell.
  apply (exec_preserves env (run_file env) (fun w' => files w' = files w)
           any_call no_write False).
  - intros i w0 _ H0. destruct (invoke_interpreter env i w0) as (_ & _ & _ & Fi). congruence.
  - intros op w0 w' Hq H0 E. destruct op; simpl in Hq, E.
    + inversion E; subst; exact H0.
    + destruct (existsb _ _); inversion E; subst; exact H0.
    + destruct (mem _ _); inversion E; subst; exact H0.
    + inversion E; subst; exact H0.
    + contradiction.
  - intros file w0 [].
  - exact Hc.
  - reflexivity.
Qed.

(** X12.  Both [%%writefile] cells write the same file, so the second
    replaces the first, and which script the file holds depends on how far
    the run gets.  Stepping through the last six cells, whatever the engine
    does, the file ends up holding the flow-trace script.  A run of these
    cells that stops at the first error writes the profile-curvature
    script, ends at the first [%%python] cell with UsageError, and never
    writes the flow-trace script. *)
Theorem second_script_replaces_first :
  forall F (env : Env F) w,
    lookup "yourlastname.py"
      (files (snd (run_notebook env true Checkpoint.cells_after_mask w)))
    = Some FlowTrace
    /\ fst (run_notebook env false Checkpoint.cells_after_mask w) = [inr tt; inl UsageError]
    /\ lookup "yourlastname.py"
         (files (snd (run_notebook env false Checkpoint.cells_after_mask w)))
       = Some ProfileCurvature.
Proof.
  intros F env w. split; [|split; reflexivity].
  change (@Checkpoint.cells_after_mask F)
    with ([@Checkpoint.cell_write ProfileCurvature F; Checkpoint.cell_python;
           Checkpoint.cell_curvature_map]
          ++ [Checkpoint.cell_write FlowTrace; Checkpoint.cell_python]
          ++ [Checkpoint.cell_trace_map])%list.
  rewrite !run_keep_going_app, run_one.
  assert (Hn : Nodes any_call no_write False (@Checkpoint.cell_trace_map F)) by nodes.
  rewrite (files_cell F env _ Hn). reflexivity.
Qed.

(* ------------------------------------------------------------------ *)
(** ** Further properties of whole runs *)
(* ------------------------------------------------------------------ *)

Lemma run_all_prefix : forall F (env : Env F) l1 c l2 w,
  (forall w0, exists e, fst (run_cell env c w0) = inl e) ->
  run_notebook env false (l1 ++ c :: l2) w = run_notebook env false (l1 ++ [c]) w.
Proof.
  intros F env l1 c l2 w Hc. revert w. induction l1 as [|c1 l1 IH]; intros w; simpl.
  - destruct (Hc w) as [e E]. destruct (run_cell env c w) as [r w']. simpl in E. subst r.
    reflexivity.
  - destruct (run_cell env c1 w) as [r w']. rewrite (IH w'). reflexivity.
Qed.

Lemma run_all_fails : forall F (env : Env F) l1 c w,
  (forall w0, exists e, fst (run_cell env c w0) = inl e) ->
  exists rs e,
    fst (run_notebook env false (l1 ++ [c]) w) = (rs ++ [inl e])%list
    /\ (List.length rs <= List.length l1)%nat.
Proof.
  intros F env l1 c w Hc. revert w. induction l1 as [|c1 l1 IH]; intros w; simpl.
  - destruct (Hc w) as [e E]. destruct (run_cell env c w) as [r w']. simpl in E. subst r.
    exists [], e. split; [reflexivity|apply le_n].
  - destruct (run_cell env c1 w) as [[e1|u] w'].
    + exists [], e1. split; [reflexivity|apply Nat.le_0_l].
    + destruct (IH w') as [rs [e [Hrs Hlen]]].
      destruct (run_notebook env false (l1 ++ [c]) w') as [rs' w'']. simpl in Hrs. subst rs'.
      exists (inr u :: rs), e. split; [reflexivity|simpl; apply le_n_S; exact Hlen].
Qed.

(** X13.  Run All never gets through the checkpoint notebook.  The cell
    of lines 706-714 does not compile, so in every environment a run that
    stops at the first error ends with an exception after at most thirty
    cells, and performs no invocation from a line after 686: r.hand,
    v.extract, r.water.outlet, r.mask, r.sim.water and the scripts never
    run. *)
Theorem run_all_ends_at_hand :
  forall F (env : Env F) (path : list string),
    (exists rs e,
        fst (run_notebook env false Checkpoint.cells (fresh path)) = (rs ++ [inl e])%list
        /\ (List.length rs <= 29)%nat)
    /\ Forall (fun ev => line_at_most 686 (ev_inv ev))
              (log (snd (run_notebook env false Checkpoint.cells (fresh path)))).
Proof.
  intros F env path.
  assert (Hh : forall w0 : World F, exists e, fst (run_cell env Checkpoint.cell_hand w0) = inl e)
    by (intros w0; exists SyntaxError; reflexivity).
  change (@Checkpoint.cells F)
    with (firstn 29 (@Checkpoint.cells_before_mask F)
            ++ Checkpoint.cell_hand :: skipn 30 (@Checkpoint.cells F))%list.
  rewrite run_all_prefix by exact Hh. split.
  - apply run_all_fails. exact Hh.
  - apply (run_notebook_preserves env
             (fun w => Forall (fun ev => line_at_most 686 (ev_inv ev)) (log w))).
    + unfold Checkpoint.cells_before_mask. simpl firstn. simpl app.
      repeat (constructor; [apply log_cell; nodes|]). constructor.
    + constructor.
Qed.

Lemma phased_holds : forall F (env : Env F) G I cells,
  Phased env G I cells -> forall w, I w -> G w.
Proof. intros F env G I cells H. destruct H; auto. Qed.

Lemma phased_run : forall F (env : Env F) G I cells,
  Phased env G I cells ->
  forall kg w, I w -> G (snd (run_notebook env kg cells w)).
Proof.
  intros F env G I cells H. induction H as [I HG|I I' c rest HG Hc Hrest IH]; intros kg w Hw.
  - simpl. apply HG. exact Hw.
  - simpl. specialize (Hc w Hw). destruct (run_cell env c w) as [r w']. simpl in Hc.
    specialize (IH kg w' Hc).
    destruct (run_notebook env kg rest w') as [rs w'']. simpl in IH.
    destruct r; [destruct kg|]; simpl; auto.
    apply (phased_holds F env G I' rest Hrest). exact Hc.
Qed.

Lemma mem_app : forall n a b, mem n (a ++ b)%list = mem n a || mem n b.
Proof. intros n a b. unfold mem. apply existsb_app. Qed.

Lemma mem_cons : forall n a l, mem n (a :: l) = (n =? a) || mem n l.
Proof. reflexivity. Qed.

Lemma written_snoc : forall F known (l : list (Event F)) ev,
  written known (l ++ [ev])
  = (map snd (names_with Produces (ev_inv ev)) ++ written known l)%list.
Proof. intros F known l ev. unfold written. rewrite fold_left_app. reflexivity. Qed.

Lemma missing_app : forall F (l1 l2 : list (Event F)) known,
  missing known (l1 ++ l2) = (missing known l1 ++ missing (written known l1) l2)%list.
Proof.
  intros F l1 l2. induction l1 as [|ev l1 IH]; intros known; simpl.
  - reflexivity.
  - rewrite IH, <- app_assoc. reflexivity.
Qed.

Lemma filter_none : forall A (f : A -> bool) l,
  forallb (fun a => negb (f a)) l = true -> filter f l = [].
Proof.
  intros A f l. induction l as [|a l IH]; simpl; intros H; [reflexivity|].
  apply andb_prop in H. destruct H as [Ha Hl].
  destruct (f a); [discriminate|]. apply IH. exact Hl.
Qed.

Lemma reads_from_known : forall F K W (i : Invocation F),
  reads_from K i ->
  Forall (fun n => mem n W = true) K ->
  filter (fun ps : string * string => negb (mem (snd ps) W)) (names_with Consumes i) = [].
Proof.
  intros F K W i Hr HK. apply filter_none. unfold reads_from in Hr.
  rewrite forallb_forall in Hr |- *. intros ps Hin. specialize (Hr ps Hin).
  rewrite negb_involutive. rewrite Forall_forall in HK. apply HK.
  unfold mem in Hr. apply existsb_exists in Hr. destruct Hr as [n [Hn Heq]].
  apply String.eqb_eq in Heq. subst n. exact Hn.
Qed.

(** An invocation that reads written names keeps the order and adds the
    names it writes. *)
Lemma ordered_invoke : forall F (env : Env F) K (i : Invocation F) w,
  reads_from K i -> ordered K w ->
  ordered (map snd (names_with Produces i) ++ K) (snd (invoke env i w)).
Proof.
  intros F env K i w Hr (Hm & HK & Hb). unfold ordered.
  destruct (invoke_interpreter env i w) as (_ & B & _).
  rewrite invoke_log, B, missing_app, Hm, written_snoc. simpl.
  rewrite (reads_from_known F K (written [] (log w)) i Hr HK). simpl.
  repeat split.
  - apply Forall_app. split.
    + apply Forall_forall. intros n Hn. rewrite mem_app.
      assert (H : mem n (map snd (names_with Produces i)) = true).
      { unfold mem. apply existsb_exists. exists n. split; [exact Hn|apply String.eqb_refl]. }
      rewrite H. reflexivity.
    + eapply Forall_impl; [|exact HK]. intros n Hn. rewrite mem_app, Hn. apply orb_true_r.
  - exact Hb.
Qed.

Lemma ordered_weaken : forall F K K' (w : World F),
  ordered (K' ++ K) w -> ordered K w.
Proof.
  intros F K K' w (Hm & HK & Hb). apply Forall_app in HK. repeat split; tauto.
Qed.

Lemma ordered_interp : forall F (env : Env F) K (op : InterpOp F) w w',
  binds_other op -> ordered K w -> interp_step env op w = inr w' -> ordered K w'.
Proof.
  intros F env K op w w' Hq (Hm & HK & Hb) E.
  destruct (interp_step_session env _ _ _ E) as (L & _).
  unfold ordered. rewrite L. repeat split; try assumption.
  destruct op; simpl in E, Hq.
  - inversion E; subst; exact Hb.
  - destruct (existsb _ _); inversion E; subst. unfold mem in *. cbn [existsb bound].
    apply andb_prop in Hq. destruct Hq as [H1 H2].
    rewrite String.eqb_sym in H1. rewrite String.eqb_sym in H2.
    apply negb_true_iff in H1. apply negb_true_iff in H2. rewrite H1, H2. exact Hb.
  - destruct (mem name (bound w)); inversion E; subst; exact Hb.
  - inversion E; subst. exact Hb.
  - inversion E; subst; exact Hb.
Qed.

Lemma ordered_prog : forall F (env : Env F) K (c : Prog F unit),
  Nodes (reads_from K) binds_other False c ->
  forall w, ordered K w -> ordered K (snd (exec env (run_file env) c w)).
Proof.
  intros F env K c Hc.
  apply (exec_preserves env (run_file env) (ordered K) (reads_from K) binds_other False).
  - intros i w Hi Hw. eapply ordered_weaken. apply ordered_invoke; eassumption.
  - intros op w w' Hq Hw E. eapply ordered_interp; eassumption.
  - intros file w [].
  - exact Hc.
Qed.

Lemma ordered_sh : forall F (env : Env F) K ln tl fl ar w,
  reads_from K (mkInv ln Shell tl fl ar) -> ordered K w ->
  ordered (map snd (names_with Produces (@mkInv F ln Shell tl fl ar)) ++ K)
          (snd (run_cell env (sh ln tl fl ar) w)).
Proof.
  intros F env K ln tl fl ar w Hr Hw. unfold run_cell, sh. simpl.
  pose proof (ordered_invoke F env K (mkInv ln Shell tl fl ar) w Hr Hw) as H.
  destruct (invoke env (mkInv ln Shell tl fl ar) w) as [[e|out] w']; exact H.
Qed.

Lemma ordered_import_grass : forall F (env : Env F) K w,
  ordered K w -> ordered K (snd (run_cell env GettingStarted.cell_import_grass w)).
Proof.
  intros F env K w (Hm & HK & Hb).
  unfold run_cell, GettingStarted.cell_import_grass, import_as. cbn.
  destruct (existsb _ (sys_path w)); cbn; [|repeat split; assumption].
  destruct (existsb _ (sys_path w)); cbn; repeat split; try assumption; intros _; reflexivity.
Qed.

Lemma ordered_relief_cell : forall F (env : Env F) K w,
  mem "elevation" K = true ->
  ordered K w -> ordered_relief K (snd (run_cell env GettingStarted.cell_relief w)).
Proof.
  intros F env K w He Hw.
  unfold run_cell, GettingStarted.cell_relief, gs_run_command, need. cbn.
  destruct (mem "gs" (bound w)) eqn:B; cbn.
  - assert (Hr : reads_from K (@mkInv F 570 RunCommand "r.relief" []
                                 [("input", AStr "elevation"); ("output", AStr "relief")])).
    { unfold reads_from. simpl. rewrite He. reflexivity. }
    pose proof (ordered_invoke F env K _ w Hr Hw) as H.
    destruct (invoke env _ w) as [[e|out] w']; simpl in H |- *.
    + split; [eapply (ordered_weaken F K ["relief"]); exact H|].
      intros _. destruct H as (_ & HK & _). inversion HK; assumption.
    + split; [eapply (ordered_weaken F K ["relief"]); exact H|].
      intros _. destruct H as (_ & HK & _). inversion HK; assumption.
  - split; [exact Hw|]. intros H. congruence.
Qed.

Lemma ordered_shaded_map : forall F (env : Env F) K w,
  mem "elevation" K = true -> mem "lagoons" K = true ->
  ordered_relief K w ->
  ordered K (snd (run_cell env GettingStarted.cell_shaded_map w)).
Proof.
  intros F env K w He Hl [Hw Hrel].
  unfold run_cell, GettingStarted.cell_shaded_map.
  rewrite exec_bind. unfold need at 1. simpl (exec env (run_file env) (Interp _ _) w).
  destruct (mem "gj" (bound w)) eqn:B; [|exact Hw].
  cbv beta iota.
  assert (Hw' : ordered ("relief" :: K) w).
  { destruct Hw as (Hm & HK & Hb). repeat split; try assumption.
    constructor; [apply Hrel; apply Hb; exact B|exact HK]. }
  apply (ordered_weaken F K ["relief"]).
  apply ordered_prog; [|exact Hw'].
  unfold wrapper. cbn.
  repeat (constructor;
          [unfold reads_from; cbn; rewrite ?mem_cons; cbn; rewrite ?He, ?Hl; reflexivity
          |intros]).
  constructor.
Qed.

Ltac keep_names K :=
  apply (Ph_cons _ _ (ordered K) (ordered K));
  [ intros ? H; exact (proj1 H)
  | intros ? H; unfold run_cell; apply ordered_prog; [nodes|exact H]
  | ].

Ltac grow_names K K' :=
  apply (Ph_cons _ _ (ordered K) (ordered K'));
  [ intros ? H; exact (proj1 H)
  | intros w0 H; apply (ordered_sh _ _ K); [reflexivity|exact H]
  | ].

(** X14.  In 01_Getting_Started.ipynb a step's inputs exist when it runs,
    in every environment and whether the reader steps through the cells or
    runs them all: every dataset an invocation of the run reads is named as
    an output by an earlier invocation of the same run.  (The notebook
    keeps the order the checkpoint draft breaks.) *)
Theorem getting_started_inputs_written :
  forall F (env : Env F) (keep_going : bool) (path : list string),
    missing [] (log (snd (run_notebook env keep_going GettingStarted.cells (fresh path)))) = [].
Proof.
  intros F env keep_going path.
  apply (phased_run F env (fun w => missing [] (log w) = []) (ordered [])).
  - unfold GettingStarted.cells.
    keep_names (@nil string). keep_names (@nil string).
    apply (Ph_cons _ _ (ordered []) (ordered []));
      [intros ? H; exact (proj1 H)|intros ? H; apply ordered_import_grass; exact H|].
    do 6 keep_names (@nil string).
    grow_names (@nil string) ["lagoons"].
    do 4 keep_names ["lagoons"].
    grow_names ["lagoons"] ["elevation"; "lagoons"].
    keep_names ["elevation"; "lagoons"].
    grow_names ["elevation"; "lagoons"] ["ortho"; "elevation"; "lagoons"].
    do 7 keep_names ["ortho"; "elevation"; "lagoons"].
    apply (Ph_cons _ _ (ordered ["ortho"; "elevation"; "lagoons"])
             (ordered_relief ["ortho"; "elevation"; "lagoons"]));
      [intros ? H; exact (proj1 H)
      |intros ? H; apply ordered_relief_cell; [reflexivity|exact H]|].
    apply (Ph_cons _ _ (ordered_relief ["ortho"; "elevation"; "lagoons"])
             (ordered ["ortho"; "elevation"; "lagoons"]));
      [intros ? H; exact (proj1 (proj1 H))
      |intros ? H; apply ordered_shaded_map; [reflexivity|reflexivity|exact H]|].
    apply Ph_nil. intros ? H. exact (proj1 H).
  - split; [reflexivity|split; [constructor|]]. intros H. discriminate H.
Qed.

Lemma completes_run : forall F (env : Env F) I cells,
  Completes env I cells ->
  forall kg w, I w ->
    fst (run_notebook env kg cells w) = map (fun _ => inr tt) cells.
Proof.
  intros F env I cells H. induction H as [I|I I' c rest Hc Hrest IH]; intros kg w Hw.
  - reflexivity.
  - simpl. destruct (Hc w Hw) as [Hr Hi].
    destruct (run_cell env c w) as [r w']. simpl in Hr, Hi. subst r.
    specialize (IH kg w' Hi).
    destruct (run_notebook env kg rest w') as [rs w'']. simpl in IH. subst rs. reflexivity.
Qed.

Lemma knows_mem : forall F B (w : World F) n,
  knows B w -> mem n B = true -> mem n (bound w) = true.
Proof.
  intros F B w n Hk Hn. unfold knows in Hk. rewrite Forall_forall in Hk.
  unfold mem in Hn. apply existsb_exists in Hn. destruct Hn as [m [Hm Heq]].
  apply String.eqb_eq in Heq. subst m. apply Hk. exact Hm.
Qed.

(** A straight cell completes when the Python calls complete, and binds
    nothing. *)
Lemma straight_completes : forall F (env : Env F) sub B c,
  python_calls_complete env ->
  Straight B c ->
  forall w, knows B w ->
    fst (exec env sub c w) = inr tt /\ bound (snd (exec env sub c w)) = bound w.
Proof.
  intros F env sub B c Hp Hs. induction Hs as [|i k Hk IH|n k Hn Hk IH]; intros w Hw.
  - split; reflexivity.
  - simpl. pose proof (invoke_result env i w) as R.
    destruct (invoke_interpreter env i w) as (_ & Bd & _).
    destruct (invoke env i w) as [r w']. simpl in R, Bd. subst r.
    assert (Hw' : knows B w') by (unfold knows; rewrite Bd; exact Hw).
    destruct (respond env (log w) i) as [e|out] eqn:E.
    + destruct (raises (api i)) eqn:Ra.
      * destruct (Hp (log w) i Ra) as [out Ho]. congruence.
      * destruct (IH no_output w' Hw') as [H1 H2]. split; congruence.
    + destruct (IH out w' Hw') as [H1 H2]. split; congruence.
  - simpl. rewrite (knows_mem F B w n Hw Hn). apply IH. exact Hw.
Qed.

Lemma straight_cell : forall F (env : Env F) B c,
  python_calls_complete env ->
  Straight B c ->
  forall w, knows B w ->
    fst (run_cell env c w) = inr tt /\ knows B (snd (run_cell env c w)).
Proof.
  intros F env B c Hp Hs w Hw. unfold run_cell.
  destruct (straight_completes F env (run_file env) B c Hp Hs w Hw) as [H1 H2].
  split; [exact H1|]. unfold knows. rewrite H2. exact Hw.
Qed.

Ltac straight :=
  autounfold with cells; cbn;
  repeat (first [ apply St_Ret
                | apply St_Need; [reflexivity|]
                | apply St_Call; intros ]).

Lemma finds_more : forall F (env : Env F) m l d,
  existsb (fun dir => provides env dir m) l = true ->
  existsb (fun dir => provides env dir m) (l ++ [d]) = true.
Proof. intros F env m l d H. rewrite existsb_app, H. reflexivity. Qed.

(** X15.  01_Getting_Started.ipynb runs through when the Python side
    works, whatever the shell commands do: if the standard modules are on
    the kernel's path, the directory the engine prints holds grass.script
    and grass.jupyter, and every invocation made through a Python function
    completes, then each of the 26 cells completes, from a fresh kernel,
    even if every [!] command fails. *)
Theorem getting_started_completes :
  forall F (env : Env F) (keep_going : bool) (path : list string),
    python_calls_complete env ->
    modules_found env path ->
    fst (run_notebook env keep_going GettingStarted.cells (fresh path))
    = map (fun _ => inr tt) (@GettingStarted.cells F).
Proof.
  intros F env keep_going path Hp [Hstd Hgrass].
  inversion Hstd as [|m1 l1 Hsub Hstd1]; subst.
  inversion Hstd1 as [|m2 l2 Hsys Hstd2]; subst.
  inversion Hstd2 as [|m3 l3 Hpl _]; subst.
  set (std := fun w : World F =>
                existsb (fun dir => provides env dir "subprocess") (sys_path w) = true
                /\ existsb (fun dir => provides env dir "sys") (sys_path w) = true
                /\ existsb (fun dir => provides env dir "pathlib") (sys_path w) = true).
  set (grass := fun w : World F =>
                  existsb (fun dir => provides env dir "grass.script") (sys_path w) = true
                  /\ existsb (fun dir => provides env dir "grass.jupyter") (sys_path w) = true).
  apply (completes_run F env std).
  - unfold GettingStarted.cells.
    apply (Co_cons env std (fun w => knows ["sys"; "subprocess"] w)).
    { intros w (H1 & H2 & H3).
      unfold run_cell, GettingStarted.cell_imports, import_as. cbn.
      rewrite H1. cbn. rewrite H2. cbn. rewrite H3. cbn.
      split; [reflexivity|]. repeat constructor. }
    apply (Co_cons env _ grass).
    { intros w Hk.
      unfold run_cell, GettingStarted.cell_python_path, need. cbn.
      rewrite (knows_mem F _ w "sys" Hk eq_refl). cbn.
      rewrite (knows_mem F _ w "subprocess" Hk eq_refl). cbn.
      fold (@grass_config F). unfold invoke.
      destruct (Hp (log w) grass_config eq_refl) as [out Ho]. rewrite Ho. cbn.
      destruct (Hgrass (log w) out Ho) as [G1 G2].
      split; [reflexivity|]. unfold grass. cbn.
      rewrite !existsb_app. cbn. rewrite G1, G2, !orb_true_r. split; reflexivity. }
    apply (Co_cons env _ (fun w => knows ["gs"; "gj"] w)).
    { intros w [G1 G2].
      unfold run_cell, GettingStarted.cell_import_grass, import_as. cbn.
      rewrite G1. cbn. rewrite G2. cbn.
      split; [reflexivity|]. repeat constructor. }
    repeat (apply (Co_cons env (fun w => knows ["gs"; "gj"] w) (fun w => knows ["gs"; "gj"] w));
            [intros w Hk; apply straight_cell; [exact Hp|straight|exact Hk]|]).
    apply Co_nil.
  - unfold std. cbn. repeat split; assumption.
Qed.

Lemma getting_started_completes_witness :
  fst (run_notebook shell_failing_env true GettingStarted.cells (fresh [python_dir]))
  = map (fun _ => inr tt) (@GettingStarted.cells Q).
Proof.
  apply (getting_started_completes Q shell_failing_env true [python_dir]).
  - intros hist i Hr. unfold shell_failing_env. simpl. unfold sample_respond.
    destruct (api i); try discriminate Hr; try (eexists; reflexivity).
    destruct (tool i =? "gs.list_strings"); eexists; reflexivity.
  - split.
    + repeat constructor.
    + intros hist out H. simpl in H. inversion H. split; vm_compute; reflexivity.
Defined.

Section Frames.
Context {F : Type} (fill : F).

Lemma lookup_mem : forall col (r : list (string * F)),
  match lookup col r with Some _ => true | None => false end = mem col (map fst r).
Proof.
  intros col r. induction r as [|[k v] r IH]; [reflexivity|].
  simpl. rewrite mem_cons. simpl. destruct (col =? k); [reflexivity|exact IH].
Qed.

Lemma mem_snoc : forall n l a, mem n (l ++ [a]) = mem n l || (n =? a).
Proof. intros n l a. rewrite mem_app, mem_cons. simpl. rewrite orb_false_r. reflexivity. Qed.

Lemma add_columns_mem : forall col ks cs,
  mem col (add_columns cs ks) = mem col cs || mem col ks.
Proof.
  intros col ks. unfold add_columns.
  induction ks as [|k ks IH]; intros cs; simpl.
  - rewrite orb_false_r. reflexivity.
  - rewrite IH, mem_cons. destruct (mem k cs) eqn:E.
    + destruct (col =? k) eqn:Ek; [|reflexivity].
      apply String.eqb_eq in Ek. subst k. rewrite E. reflexivity.
    + rewrite mem_snoc, orb_assoc. reflexivity.
Qed.

Lemma columns_mem : forall col (t : Table F) cs,
  mem col (fold_left (fun cs r => add_columns cs (map fst r)) t cs)
  = mem col cs || has_column col t.
Proof.
  intros col t. induction t as [|r t IH]; intros cs; simpl.
  - rewrite orb_false_r. reflexivity.
  - rewrite IH, add_columns_mem, lookup_mem, orb_assoc. reflexivity.
Qed.

Lemma lookup_filled : forall col (g : string -> F) cols,
  lookup col (map (fun c => (c, g c)) cols) = if mem col cols then Some (g col) else None.
Proof.
  intros col g cols. induction cols as [|c cols IH]; [reflexivity|].
  simpl. rewrite mem_cons. destruct (col =? c) eqn:E; simpl.
  - apply String.eqb_eq in E. subst c. reflexivity.
  - exact IH.
Qed.

Lemma existsb_over_map : forall A B (f : B -> bool) (g : A -> B) l,
  existsb f (map g l) = existsb (fun a => f (g a)) l.
Proof.
  intros A B f g l. induction l as [|a l IH]; simpl; [reflexivity|rewrite IH; reflexivity].
Qed.

Lemma has_column_frame : forall col (t : Table F),
  has_column col (frame fill t) = has_column col t.
Proof.
  intros col t. unfold frame.
  pose proof (columns_mem col t []) as Hc. fold (columns t) in Hc. simpl in Hc.
  unfold has_column at 1. rewrite existsb_over_map.
  destruct (has_column col t) eqn:E.
  - unfold has_column in E. apply existsb_exists in E. destruct E as [r [Hin _]].
    apply existsb_exists. exists r. split; [exact Hin|].
    rewrite lookup_filled, Hc. reflexivity.
  - destruct (existsb _ t) eqn:E'; [|reflexivity].
    apply existsb_exists in E'. destruct E' as [r [_ Hr]].
    rewrite lookup_filled, Hc in Hr. discriminate Hr.
Qed.

(** Reading the frame is reading the records, with NaN where a record
    has no value: KeyError for the column when no record has it, KeyError
    for the row when there are too few records. *)
Lemma loc_frame : forall (t : Table F) row col,
  loc (frame fill t) row col = loc_of_records fill t row col.
Proof.
  intros t row col. unfold loc, loc_of_records. rewrite has_column_frame.
  destruct (has_column col t) eqn:E; [|reflexivity].
  unfold frame. rewrite nth_error_map.
  destruct (nth_error t row) as [r|]; [|reflexivity].
  simpl. rewrite lookup_filled.
  pose proof (columns_mem col t []) as Hc. fold (columns t) in Hc. simpl in Hc.
  rewrite Hc, E. reflexivity.
Qed.

End Frames.

Lemma selected_app : forall F (t : Table F) l evs,
  selected t l -> selected t (l ++ evs).
Proof.
  intros F t l evs (ev & out & Hin & H). exists ev, out.
  split; [apply in_or_app; left; exact Hin|exact H].
Qed.

Lemma fed_after_app : forall F (fill : F) (l seen evs : list (Event F)),
  fed_after fill seen l -> fed_after fill (seen ++ l) evs -> fed_after fill seen (l ++ evs).
Proof.
  intros F fill l. induction l as [|ev l IH]; intros seen evs Hl Hevs; simpl in *.
  - rewrite app_nil_r in Hevs. exact Hevs.
  - destruct Hl as [Hev Hl]. split; [exact Hev|].
    apply IH; [exact Hl|]. rewrite <- app_assoc. exact Hevs.
Qed.

Lemma outlets_fed_app : forall F (fill : F) (l evs : list (Event F)),
  outlets_fed fill l ->
  Forall (fun ev => not_outlet (ev_inv ev)) evs ->
  outlets_fed fill (l ++ evs).
Proof.
  intros F fill l evs Hl Hevs. unfold outlets_fed. apply fed_after_app; [exact Hl|].
  simpl. generalize l. induction Hevs as [|ev evs Hev _ IH]; intros seen; simpl.
  - exact I.
  - split; [|apply IH].
    intros H830. unfold not_outlet in Hev. rewrite H830 in Hev. discriminate Hev.
Qed.

Lemma frame_selected_invoke : forall F (env : Env F) (i : Invocation F) w,
  not_outlet i -> frame_selected env w -> frame_selected env (snd (invoke env i w)).
Proof.
  intros F env i w Hi [Hdf Ho]. unfold frame_selected.
  destruct (invoke_interpreter env i w) as (_ & _ & D & _).
  rewrite invoke_log, D. split.
  - intros t' Ht'. destruct (Hdf t' Ht') as (t & Hs & Hf).
    exists t. split; [apply selected_app; exact Hs|exact Hf].
  - apply outlets_fed_app; [exact Ho|]. constructor; [exact Hi|constructor].
Qed.

Lemma frame_selected_interp : forall F (env : Env F) (op : InterpOp F) w w',
  keeps_df op -> frame_selected env w -> interp_step env op w = inr w' ->
  frame_selected env w'.
Proof.
  intros F env op w w' Hq [Hdf Ho] E.
  destruct (interp_step_session env _ _ _ E) as (L & _).
  unfold frame_selected. rewrite L.
  assert (D : df w' = df w).
  { destruct op; simpl in E, Hq.
    - inversion E; reflexivity.
    - destruct (existsb _ _); inversion E; reflexivity.
    - destruct (mem name (bound w)); inversion E; reflexivity.
    - contradiction.
    - inversion E; reflexivity. }
  rewrite D. split; assumption.
Qed.

Lemma frame_selected_prog : forall F (env : Env F) A (c : Prog F A),
  Nodes not_outlet keeps_df False c ->
  forall w, frame_selected env w -> frame_selected env (snd (exec env (run_file env) c w)).
Proof.
  intros F env A c Hc.
  apply (exec_preserves env (run_file env) (frame_selected env) not_outlet keeps_df False).
  - apply frame_selected_invoke.
  - apply frame_selected_interp.
  - intros file w [].
  - exact Hc.
Qed.

Lemma frame_selected_table : forall F (env : Env F) w,
  frame_selected env w -> frame_selected env (snd (run_cell env Checkpoint.cell_table w)).
Proof.
  intros F env w Hw. unfold run_cell, Checkpoint.cell_table.
  do 4 (rewrite exec_bind;
          match goal with
          | |- context [exec env (run_file env) ?p w] =>
              let H := fresh "H" in
              assert (H : frame_selected env (snd (exec env (run_file env) p w)))
                by (apply frame_selected_prog; [nodes|exact Hw]);
              destruct (exec env (run_file env) p w) as [[?e|[]] ?w];
              simpl in H; [exact H|]; clear Hw; rename H into Hw
          end;
          match goal with w1 : World F |- _ => clear w; rename w1 into w end).
  rewrite exec_bind. simpl (exec env (run_file env) (Call _ Ret) w).
  fold (@v_db_select F).
  pose proof (invoke_log env v_db_select w) as L.
  pose proof (invoke_result env v_db_select w) as R.
  pose proof (frame_selected_invoke F env v_db_select w eq_refl Hw) as Hi.
  destruct (invoke env v_db_select w) as [r w1]. simpl in L, R, Hi. subst r.
  destruct (respond env (log w) v_db_select) as [e|out] eqn:Er; simpl; [exact Hi|].
  rewrite exec_bind. destruct (records out) as [t|] eqn:Et; simpl; [|exact Hi].
  destruct Hi as [_ Ho]. split.
  - intros t' Ht'. inversion Ht'; subst t'. exists t. split; [|reflexivity].
    eexists. exists out. split; [rewrite L; apply in_or_app; right; left; reflexivity|].
    simpl. repeat split; assumption.
  - exact Ho.
Qed.

Lemma frame_selected_outlet : forall F (env : Env F) w,
  frame_selected env w -> frame_selected env (snd (run_cell env Checkpoint.cell_outlet w)).
Proof.
  intros F env w Hw. unfold run_cell, Checkpoint.cell_outlet.
  rewrite exec_bind. unfold need at 1. simpl (exec env (run_file env) (Interp _ _) w).
  destruct (mem "gs" (bound w)); [|exact Hw]. cbv beta iota.
  destruct (df w) as [t'|] eqn:Hdf.
  - rewrite exec_bind, (exec_df_loc F env _ w t' 8 "x" Hdf).
    destruct (loc t' 8 "x") as [e|x] eqn:Lx; [exact Hw|].
    rewrite exec_bind, (exec_df_loc F env _ w t' 8 "y" Hdf).
    destruct (loc t' 8 "y") as [e|y] eqn:Ly; [exact Hw|].
    rewrite exec_bind. simpl (exec env (run_file env) (Call _ _) w).
    fold (@r_water_outlet F x y).
    pose proof (invoke_log env (r_water_outlet x y) w) as L.
    destruct (invoke_interpreter env (r_water_outlet x y) w) as (_ & _ & D & _).
    assert (Hw1 : frame_selected env (snd (invoke env (r_water_outlet x y) w))).
    { destruct Hw as [Hd Ho]. unfold frame_selected. rewrite L, D. split.
      - intros t0 Ht0. destruct (Hd t0 Ht0) as (t & Hs & Hf).
        exists t. split; [apply selected_app; exact Hs|exact Hf].
      - apply fed_after_app; [exact Ho|]. simpl. split; [|exact I].
        intros _. destruct (Hd t' Hdf) as (t & Hs & Hf). subst t'.
        rewrite loc_frame in Lx, Ly.
        exists t, x, y. split; [exact Hs|]. repeat split; assumption. }
    destruct (invoke env (r_water_outlet x y) w) as [[e|out] w1]; simpl in Hw1;
      cbv beta iota; [exact Hw1|].
    apply frame_selected_prog; [nodes|exact Hw1].
  - rewrite exec_bind. unfold df_loc at 1. simpl. rewrite Hdf. exact Hw.
Qed.

(** X16.  The coordinates of the outlet come from the table of the same
    run: in every run of the checkpoint notebook from a fresh kernel,
    stepping through or stopping at the first error, whenever
    r.water.outlet (line 830) is invoked, a v.db.select (line 798) earlier
    in that run completed with a table that has the columns x and y and
    at least nine records, and the coordinates passed are the x and y of
    record 8 of that table, NaN standing for a value the record does not
    have. *)
Theorem outlet_fed_by_selected_table :
  forall F (env : Env F) (keep_going : bool) (path : list string),
    outlets_fed (nan env)
      (log (snd (run_notebook env keep_going Checkpoint.cells (fresh path)))).
Proof.
  intros F env keep_going path.
  apply (run_notebook_preserves env (frame_selected env)).
  - unfold Checkpoint.cells, Checkpoint.cells_before_mask, Checkpoint.cells_under_mask,
      Checkpoint.cells_after_mask. simpl app.
    repeat (constructor;
            [first [ apply frame_selected_table
                   | apply frame_selected_outlet
                   | intros w Hw; unfold run_cell; apply frame_selected_prog;
                     [solve [nodes]|exact Hw] ]|]).
    constructor.
  - split.
    + intros t Ht. discriminate Ht.
    + exact I.
Qed.

(** The property above is not empty: stepping through the cells of the
    checkpoint notebook with an engine on which every invocation completes,
    r.water.outlet is invoked. *)
Example outlet_is_reached :
  existsb (fun ev => (line (ev_inv ev) =? 830)%nat)
    (log (snd (run_notebook (sample_env two_points) true Checkpoint.cells
                 (fresh [python_dir])))) = true.
Proof. vm_compute. reflexivity. Qed.

(** With a table whose record 8 has no x, while other records have one,
    the frame holds NaN there and r.water.outlet is invoked with it. *)
Example outlet_gets_nan :
  map (fun ev => lookup "coordinates" (args (ev_inv ev)))
      (performed (sample_env two_points) (run_file (sample_env two_points))
         Checkpoint.cell_outlet
         (mkWorld [] ["gs"] (Some (frame sample_nan gapped_table)) [] None [] []))
  = [Some (AFloats [sample_nan; inject_Z 128008])].
Proof. vm_compute. reflexivity. Qed.

(* ------------------------------------------------------------------ *)
(** ** The mask along a run *)
(* ------------------------------------------------------------------ *)

Section MaskRun.
Context {F : Type} (env : Env F).















End MaskRun.






(** The assumption on the engine is needed: with an engine that does not
    remove the mask, the mask stays and the cells after line 968 run
    under it. *)
Example mask_stays_when_not_removed :
  mask (snd (run_notebook stuck_mask_env true Checkpoint.cells (fresh [python_dir])))
  = Some "basin_15"
  /\ map (fun ev => (line (ev_inv ev), ev_mask ev))
         (filter (fun ev => (968 <? line (ev_inv ev))%nat)
            (log (snd (run_notebook stuck_mask_env true Checkpoint.cells
                         (fresh [python_dir])))))
     = [(1052, Some "basin_15"); (1053, Some "basin_15"); (1054, Some "basin_15");
        (1116, Some "basin_15"); (1117, Some "basin_15"); (1118, Some "basin_15");
        (1119, Some "basin_15")]%nat.
Proof. split; vm_compute; reflexivity. Qed.

(** On the engine of [grass_like_env] r.mask -r fails when no mask is
    set, and in its run the simulation ran under the mask. *)
Example grass_like_run :
  (exists e, respond grass_like_env [] r_mask_remove = inl e)
  /\ map (fun ev => (tool (ev_inv ev), ev_mask ev))
         (filter (fun ev => (line (ev_inv ev) =? 905)%nat)
            (log (snd (run_notebook grass_like_env true Checkpoint.cells
                         (fresh [python_dir])))))
     = [("r.sim.water", Some "basin_15")].
Proof. split; [eexists; reflexivity|vm_compute; reflexivity]. Qed.

(* ------------------------------------------------------------------ *)
(** ** The state of the interpreter along the cells *)
(* ------------------------------------------------------------------ *)







